(* ===================================================================== *)
(*  Haraka queue plugins: plugins/queue/firestore.js (Metadata Stage)     *)
(*  and plugins/queue/gcp_storage.js (Archival Stage).                    *)
(*                                                                       *)
(*  Shallow embedding of the two queue hooks and their helpers.  What    *)
(*  the hooks talk to is made explicit: the mail parser, the blob store, *)
(*  the document store, the entropy source, the clock, the log and the   *)
(*  hook continuation [next] are a world the hooks read and update, and  *)
(*  a runtime that decides what the parser answers, which service call   *)
(*  is rejected and what the name [crypto] denotes.                      *)
(*                                                                       *)
(*  An [async] hook is its sequence of awaited steps: an awaited promise *)
(*  resolves to a value, rejects with an error, which the enclosing      *)
(*  [try] catches, or never settles, and then nothing after the [await]  *)
(*  runs.  The promises of the parser and of the two stores settle; the  *)
(*  promise the storage hook builds around the message stream settles    *)
(*  only on the events it listens to.                                    *)
(* ===================================================================== *)

From Stdlib Require Import NArith Ascii String Strings.Byte DecimalString.
From stdpp Require Import base option list strings gmap fin_maps.

Local Open Scope string_scope.

(* --------------------------------------------------------------------- *)
(* JavaScript values the plugins rely on                                  *)
(* --------------------------------------------------------------------- *)

Module Js.

(** Values thrown by the language itself or rejected by a service. *)
Inductive Error :=
| ReferenceError (message : string)
| TypeError (message : string)
| ServiceError (message : string).

Definition message (e : Error) : string :=
  match e with
  | ReferenceError m | TypeError m | ServiceError m => m
  end.

(** Truthiness of a possibly-undefined string: [undefined] and [''] are
    falsy, every other string is truthy. *)
Definition truthy (o : option string) : bool :=
  match o with
  | Some (String _ _) => true
  | _ => false
  end.

(** [o || d] for a possibly-undefined string [o]. *)
Definition or_else (o : option string) (d : string) : string :=
  match o with
  | Some (String c r) => String c r
  | _ => d
  end.

(** [o || null]. *)
Definition or_null (o : option string) : option string :=
  match o with
  | Some (String c r) => Some (String c r)
  | _ => None
  end.

(** [s.replace(/[<>]/g, '')]: the character class matches "<" and ">",
    the g flag replaces every match. *)
Definition is_angle (c : ascii) : bool :=
  (Ascii.eqb c "<" || Ascii.eqb c ">")%char.

Fixpoint replace_angle_g (s : string) : string :=
  match s with
  | EmptyString => EmptyString
  | String c r => if is_angle c then replace_angle_g r
                  else String c (replace_angle_g r)
  end.

(** [buf.toString('hex')]: two lower-case digits per byte. *)
Definition hex_digit (n : N) : ascii :=
  match n with
  | 0 => "0" | 1 => "1" | 2 => "2" | 3 => "3" | 4 => "4" | 5 => "5"
  | 6 => "6" | 7 => "7" | 8 => "8" | 9 => "9" | 10 => "a" | 11 => "b"
  | 12 => "c" | 13 => "d" | 14 => "e" | _ => "f"
  end%N%char.

Fixpoint toString_hex (buf : list byte) : string :=
  match buf with
  | [] => EmptyString
  | b :: r =>
      String (hex_digit (Byte.to_N b / 16))
        (String (hex_digit (Byte.to_N b mod 16)) (toString_hex r))
  end.

(** A non-negative integer inside a template literal: decimal digits. *)
Definition number_toString (n : Z) : string :=
  NilZero.string_of_int (Z.to_int n).

Definition is_hex_digit (c : ascii) : bool :=
  existsb (Ascii.eqb c)
    ["0";"1";"2";"3";"4";"5";"6";"7";"8";"9";"a";"b";"c";"d";"e";"f"]%char.

Fixpoint all_chars (p : ascii -> bool) (s : string) : bool :=
  match s with
  | EmptyString => true
  | String c r => p c && all_chars p r
  end.

(** [s.length] counts UTF-16 code units.  A string here holds the UTF-8
    bytes of the text: a byte below 0x80 and the first byte of a two- or
    three-byte sequence stand for one unit, the first byte of a four-byte
    sequence for a surrogate pair, a continuation byte for none. *)
Definition utf16_units (c : ascii) : nat :=
  let n := N_of_ascii c in
  if (n <? 128)%N then 1
  else if (n <? 192)%N then 0
  else if (n <? 240)%N then 1
  else 2.

Fixpoint length (s : string) : nat :=
  match s with
  | EmptyString => 0
  | String c r => utf16_units c + length r
  end.

End Js.

(* --------------------------------------------------------------------- *)
(* Data model                                                             *)
(* --------------------------------------------------------------------- *)

(** A point in time, in milliseconds since the epoch.  [DateObject] is a
    JavaScript [Date]; [IsoString ms] is the string [toISOString()]
    returns for that instant. *)
Inductive DateValue :=
| DateObject (ms : Z)
| IsoString (ms : Z).

(** mailparser's address objects: [text] is the display form, [value] the
    parsed mailboxes. *)
Module Address.
Record t := { address : option string; name : string }.
End Address.

Module AddressObject.
Record t := { text : string; value : list Address.t }.
End AddressObject.

(** The fields of mailparser's result that the plugins read.  An absent
    property is [None]. *)
Module ParsedEmail.
Record t := {
  messageId : option string;
  subject : option string;
  from : option AddressObject.t;
  to : option AddressObject.t;
  cc : option AddressObject.t;
  bcc : option AddressObject.t;
  inReplyTo : option string;
  date : option Z;
  attachments : option (list string);
  text : option string
}.
End ParsedEmail.

(** [connection.transaction.notes.storageReference], written by the
    storage plugin and read by the firestore plugin. *)
Module StorageReference.
Record t := {
  bucketName : string;
  objectName : string;
  messageId : string;
  storageUrl : string
}.
End StorageReference.

(** The document [constructMessageDetails] builds.  The three storage
    properties come from a spread and exist only when it spreads an
    object. *)
Module MessageDetails.
Record t := {
  messageId : string;
  bucketName : option string;
  objectName : option string;
  storageUrl : option string;
  subject : string;
  from : string;
  to : string;
  cc : string;
  ccAddresses : list (option string);
  bcc : string;
  inReplyTo : option string;
  date : DateValue;
  receivedDate : DateValue;
  attachmentsCount : nat;
  plainTextLength : nat
}.
End MessageDetails.

(** The object [constructObjectMetadata] builds. *)
Module ObjectMetadata.
Record custom := {
  messageId : string;
  subject : string;
  from : string;
  to : string;
  date : DateValue
}.
Record t := {
  contentType : string;
  resumable : bool;
  metadata : custom
}.
End ObjectMetadata.

(** Haraka's message stream, piped into the PassThrough the capture
    listens to.  The chunks are handed on, and then: the message stream
    ends, and [pipe] ends the PassThrough ('end'); or the PassThrough
    itself emits 'error'; or the message stream emits 'error' before it
    ends, which [pipe] does not hand on: the PassThrough then emits
    neither 'end' nor 'error'. *)
Inductive StreamEnd :=
| StreamEnds
| StreamErrors (e : Js.Error)
| SourceErrors (e : Js.Error).

Record MessageStream := {
  chunks : list (list byte);
  finish : StreamEnd
}.

Record Transaction := {
  message_stream : option MessageStream
}.

Record Connection := {
  transaction : option Transaction
}.

(** Haraka's hook return codes used by the plugins, and the calls made on
    the continuation: [next()], [next(OK)], [next(DENYSOFT, msg)]. *)
Inductive Code := OK | DENYSOFT.

Record NextCall := {
  code : option Code;
  reason : option string
}.

Inductive LogLevel := LOGINFO | LOGERROR.

(** mailparser *)
Record ParserOptions := {
  skipImageLinks : bool;
  maxHtmlLengthToParse : N
}.

Inductive ParserInput :=
| FromBuffer (raw : list byte)
| FromStream (s : MessageStream)
| FromUndefined.

(** Cloud Storage: an object has a body and, once attached, metadata. *)
Record StoredObject := {
  body : list byte;
  attached : option ObjectMetadata.t
}.

(** Firestore: a document of the top-level recipient collection. *)
Record RecipientDoc := {
  doc_id : string;
  notifications_email : string
}.

(** What the identifier [crypto] denotes where a plugin uses it. *)
Inductive CryptoBinding :=
| CryptoUnbound       (* no such identifier in scope *)
| CryptoWeb           (* the Web Crypto global: has no randomBytes *)
| CryptoNode.         (* require('crypto') *)

(** Everything outside the plugins that decides how a run goes.  The
    promises of the parser and of the service calls settle: each
    resolves or rejects. *)
Record Runtime := {
  entropy : nat -> byte;                  (* the bytes crypto hands out *)
  clock : nat -> Z;                       (* successive readings of the clock *)
  faults : nat -> option Js.Error;        (* which service call is rejected *)
  simpleParser : ParserInput -> ParserOptions -> Js.Error + ParsedEmail.t;
  global_crypto : CryptoBinding           (* [crypto] where no declaration binds it *)
}.

(** A path of a metadata document:
    collection / recipient document / sub-collection / document id. *)
Definition DocPath : Type := string * string * string * string.

(** The state the hooks read and update. *)
Record World := {
  bucket_objects : gmap (string * string) StoredObject;
  recipient_collections : gmap string (list RecipientDoc);
  metadata_documents : gmap DocPath MessageDetails.t;
  notes_storageReference : option StorageReference.t;
  entropy_used : nat;
  clock_reads : nat;
  service_calls : nat;
  log : list (LogLevel * string);
  next_calls : list NextCall
}.

Definition set_bucket_objects (f : gmap (string * string) StoredObject -> gmap (string * string) StoredObject) (w : World) : World :=
  {| bucket_objects := f (bucket_objects w);
     recipient_collections := recipient_collections w;
     metadata_documents := metadata_documents w;
     notes_storageReference := notes_storageReference w;
     entropy_used := entropy_used w; clock_reads := clock_reads w;
     service_calls := service_calls w; log := log w; next_calls := next_calls w |}.

Definition set_metadata_documents (f : gmap DocPath MessageDetails.t -> gmap DocPath MessageDetails.t) (w : World) : World :=
  {| bucket_objects := bucket_objects w;
     recipient_collections := recipient_collections w;
     metadata_documents := f (metadata_documents w);
     notes_storageReference := notes_storageReference w;
     entropy_used := entropy_used w; clock_reads := clock_reads w;
     service_calls := service_calls w; log := log w; next_calls := next_calls w |}.

Definition set_notes_storageReference (r : option StorageReference.t) (w : World) : World :=
  {| bucket_objects := bucket_objects w;
     recipient_collections := recipient_collections w;
     metadata_documents := metadata_documents w;
     notes_storageReference := r;
     entropy_used := entropy_used w; clock_reads := clock_reads w;
     service_calls := service_calls w; log := log w; next_calls := next_calls w |}.

Definition set_entropy_used (n : nat) (w : World) : World :=
  {| bucket_objects := bucket_objects w;
     recipient_collections := recipient_collections w;
     metadata_documents := metadata_documents w;
     notes_storageReference := notes_storageReference w;
     entropy_used := n; clock_reads := clock_reads w;
     service_calls := service_calls w; log := log w; next_calls := next_calls w |}.

Definition set_clock_reads (n : nat) (w : World) : World :=
  {| bucket_objects := bucket_objects w;
     recipient_collections := recipient_collections w;
     metadata_documents := metadata_documents w;
     notes_storageReference := notes_storageReference w;
     entropy_used := entropy_used w; clock_reads := n;
     service_calls := service_calls w; log := log w; next_calls := next_calls w |}.

Definition set_service_calls (n : nat) (w : World) : World :=
  {| bucket_objects := bucket_objects w;
     recipient_collections := recipient_collections w;
     metadata_documents := metadata_documents w;
     notes_storageReference := notes_storageReference w;
     entropy_used := entropy_used w; clock_reads := clock_reads w;
     service_calls := n; log := log w; next_calls := next_calls w |}.

Definition set_log (l : list (LogLevel * string)) (w : World) : World :=
  {| bucket_objects := bucket_objects w;
     recipient_collections := recipient_collections w;
     metadata_documents := metadata_documents w;
     notes_storageReference := notes_storageReference w;
     entropy_used := entropy_used w; clock_reads := clock_reads w;
     service_calls := service_calls w; log := l; next_calls := next_calls w |}.

Definition set_next_calls (l : list NextCall) (w : World) : World :=
  {| bucket_objects := bucket_objects w;
     recipient_collections := recipient_collections w;
     metadata_documents := metadata_documents w;
     notes_storageReference := notes_storageReference w;
     entropy_used := entropy_used w; clock_reads := clock_reads w;
     service_calls := service_calls w; log := log w; next_calls := l |}.

(* --------------------------------------------------------------------- *)
(* Effects: state, exceptions, waits                                      *)
(* --------------------------------------------------------------------- *)

(** How a computation ends when it does not return: it throws, or it
    awaits a promise that never settles. *)
Inductive Failure :=
| Thrown (e : Js.Error)
| Pending.

Coercion Thrown : Js.Error >-> Failure.

(** A computation reads and updates the world and either returns a value
    or fails; what it did to the world before failing stays done. *)
Definition Eff (A : Type) : Type := World -> (Failure + A) * World.

#[global] Instance Eff_ret : MRet Eff := fun A x w => (inr x, w).

#[global] Instance Eff_bind : MBind Eff := fun A B f m w =>
  match m w with
  | (inr x, w') => f x w'
  | (inl failure, w') => (inl failure, w')
  end.

Definition throw {A : Type} (e : Js.Error) : Eff A := fun w => (inl (Thrown e), w).

(** [await] of a promise that never settles: nothing after it runs. *)
Definition never_settles {A : Type} : Eff A := fun w => (inl Pending, w).

(** [try { body } catch (error) { handler }]: the handler runs on what
    the body throws; a body that waits forever never reaches it. *)
Definition try_catch {A : Type} (body : Eff A) (handler : Js.Error -> Eff A) : Eff A :=
  fun w =>
    match body w with
    | (inl (Thrown e), w') => handler e w'
    | (inl Pending, w') => (inl Pending, w')
    | (inr x, w') => (inr x, w')
    end.

Notation "m1 ;; m2" := (mbind (fun _ : unit => m2) m1)
  (at level 100, m2 at level 200, right associativity, only parsing) : stdpp_scope.

Definition gets {A : Type} (f : World -> A) : Eff A := fun w => (inr (f w), w).
Definition modify (f : World -> World) : Eff unit := fun w => (inr tt, f w).

Section Primitives.
Variable rt : Runtime.

(** The continuation Haraka passes to a hook: each call is recorded. *)
Definition next (c : option Code) (r : option string) : Eff unit :=
  modify (fun w => set_next_calls (next_calls w ++ [{| code := c; reason := r |}]) w).

Definition loginfo (s : string) : Eff unit :=
  modify (fun w => set_log (log w ++ [(LOGINFO, s)]) w).

Definition logerror (s : string) : Eff unit :=
  modify (fun w => set_log (log w ++ [(LOGERROR, s)]) w).

(** [Date.now()] and [new Date()] read the clock. *)
Definition Date_now : Eff Z :=
  n ← gets clock_reads;
  modify (set_clock_reads (S n));;
  mret (clock rt n).

Definition new_Date_toISOString : Eff DateValue :=
  ms ← Date_now; mret (IsoString ms).

(** [crypto.randomBytes(n)] where [crypto] denotes [c]. *)
Definition crypto_randomBytes (c : CryptoBinding) (n : nat) : Eff (list byte) :=
  match c with
  | CryptoUnbound => throw (Js.ReferenceError "crypto is not defined")
  | CryptoWeb => throw (Js.TypeError "crypto.randomBytes is not a function")
  | CryptoNode =>
      used ← gets entropy_used;
      modify (set_entropy_used (used + n));;
      mret (entropy rt <$> seq used n)
  end.

(** An awaited call to a storage service: the runtime decides whether it
    is rejected. *)
Definition service_call : Eff unit :=
  i ← gets service_calls;
  modify (set_service_calls (S i));;
  match faults rt i with
  | Some e => throw e
  | None => mret tt
  end.

Definition get_storageReference : Eff (option StorageReference.t) :=
  gets notes_storageReference.

Definition put_storageReference (r : StorageReference.t) : Eff unit :=
  modify (set_notes_storageReference (Some r)).

Definition parser_options : ParserOptions :=
  {| skipImageLinks := true; maxHtmlLengthToParse := 1024 * 1024 * 50 |}.

Definition run_simpleParser (input : ParserInput) : Eff ParsedEmail.t :=
  match simpleParser rt input parser_options with
  | inl e => throw e
  | inr email => mret email
  end.

(** Firestore: [collection(c).where('notifications_email', '==', v).get()],
    the [docs] of the snapshot. *)
Definition firestore_query_get (c v : string) : Eff (list RecipientDoc) :=
  service_call;;
  gets (fun w => filter (fun d => notifications_email d = v)
                   (default [] (recipient_collections w !! c))).

(** Firestore: [ref.collection(sub).doc(id).set(details)], a full
    overwrite of the document at that path. *)
Definition firestore_doc_set (p : DocPath) (details : MessageDetails.t) : Eff unit :=
  service_call;;
  modify (set_metadata_documents (insert p details)).

(** Cloud Storage: [file.save(buffer)] writes a new object under the key. *)
Definition storage_save (bucket object : string) (buffer : list byte) : Eff unit :=
  service_call;;
  modify (set_bucket_objects
            (insert (bucket, object) {| body := buffer; attached := None |})).

(** Cloud Storage: [file.setMetadata(m)]. *)
Definition storage_setMetadata (bucket object : string) (m : ObjectMetadata.t) : Eff unit :=
  service_call;;
  modify (set_bucket_objects
            (alter (fun o => {| body := body o; attached := Some m |}) (bucket, object))).

End Primitives.

(* --------------------------------------------------------------------- *)
(* plugins/queue/firestore.js                                             *)
(* --------------------------------------------------------------------- *)

Module FirestorePlugin.

(** [this.cfg.firestore] *)
Record Cfg := {
  merchantsPaymentNotificationsCollection : string;
  merchantNotificationCollection : string
}.

Section WithRuntime.
Variable rt : Runtime.

(** The file declares [Firestore] and [simpleParser] and nothing
    else, so [crypto] is whatever the scope the plugin runs in gives
    that name. *)
Definition crypto : CryptoBinding := global_crypto rt.

Definition generateMessageId (email : ParsedEmail.t) : Eff string :=
  if Js.truthy (ParsedEmail.messageId email) then
    mret (Js.replace_angle_g (default "" (ParsedEmail.messageId email)))
  else
    buf ← crypto_randomBytes rt crypto 16;
    mret (Js.toString_hex buf).

Definition parseEmail (tx : Transaction) : Eff ParsedEmail.t :=
  run_simpleParser rt
    (match message_stream tx with
     | Some s => FromStream s
     | None => FromUndefined
     end).

Definition constructMessageDetails (email : ParsedEmail.t) (messageId : string)
    (storageReference : option StorageReference.t) : Eff MessageDetails.t :=
  date ← match ParsedEmail.date email with
         | Some d => mret (DateObject d)
         | None => new_Date_toISOString rt
         end;
  receivedDate ← new_Date_toISOString rt;
  mret {|
    MessageDetails.messageId := messageId;
    MessageDetails.bucketName := StorageReference.bucketName <$> storageReference;
    MessageDetails.objectName := StorageReference.objectName <$> storageReference;
    MessageDetails.storageUrl := StorageReference.storageUrl <$> storageReference;
    MessageDetails.subject := Js.or_else (ParsedEmail.subject email) "";
    MessageDetails.from := Js.or_else (AddressObject.text <$> ParsedEmail.from email) "";
    MessageDetails.to := Js.or_else (AddressObject.text <$> ParsedEmail.to email) "";
    MessageDetails.cc := Js.or_else (AddressObject.text <$> ParsedEmail.cc email) "";
    MessageDetails.ccAddresses :=
      Address.address <$> default [] (AddressObject.value <$> ParsedEmail.cc email);
    MessageDetails.bcc := Js.or_else (AddressObject.text <$> ParsedEmail.bcc email) "";
    MessageDetails.inReplyTo := Js.or_null (ParsedEmail.inReplyTo email);
    MessageDetails.date := date;
    MessageDetails.receivedDate := receivedDate;
    MessageDetails.attachmentsCount :=
      match ParsedEmail.attachments email with
      | Some l => length l
      | None => 0
      end;
    MessageDetails.plainTextLength :=
      if Js.truthy (ParsedEmail.text email)
      then Js.length (default "" (ParsedEmail.text email))
      else 0
  |}.

(** [(await query.get()).docs[0].ref]: reading [ref] of [undefined]
    throws. *)
Definition first_doc_ref (docs : list RecipientDoc) : Eff RecipientDoc :=
  match docs with
  | d :: _ => mret d
  | [] => throw (Js.TypeError "Cannot read properties of undefined (reading 'ref')")
  end.

(** The [try] block of [persist_email_details]. *)
Definition persist_email_details_try (cfg : Cfg) (tx : Transaction) : Eff unit :=
  storageReference ← get_storageReference;
  email ← parseEmail tx;
  messageId ← match storageReference with
              | Some r => mret (StorageReference.messageId r)
              | None => generateMessageId email
              end;
  messageDetails ← constructMessageDetails email messageId storageReference;
  docs ← firestore_query_get rt (merchantsPaymentNotificationsCollection cfg)
           (MessageDetails.to messageDetails);
  ref ← first_doc_ref docs;
  firestore_doc_set rt
    (merchantsPaymentNotificationsCollection cfg, doc_id ref,
     merchantNotificationCollection cfg, messageId)
    messageDetails;;
  loginfo ("Message details for " ++ messageId ++
           " successfully persisted in Firestore");;
  next (Some OK) None.

(** Its [catch] block. *)
Definition persist_email_details_catch (error : Js.Error) : Eff unit :=
  logerror ("Failed to persist email details in Firestore: " ++ Js.message error);;
  next (Some DENYSOFT) (Some "Persistence error").

Definition persist_email_details (cfg : Cfg) (connection : option Connection) : Eff unit :=
  match connection with
  | Some {| transaction := Some tx |} =>
      try_catch (persist_email_details_try cfg tx) persist_email_details_catch
  | _ => next None None
  end.

End WithRuntime.
End FirestorePlugin.

(* --------------------------------------------------------------------- *)
(* plugins/queue/gcp_storage.js                                           *)
(* --------------------------------------------------------------------- *)

Module GcpStoragePlugin.

(** [this.cfg.storage.bucketName] and [this.cfg.queue.isSingleHandler] *)
Record Cfg := {
  bucketName : string;
  isSingleHandler : bool
}.

Section WithRuntime.
Variable rt : Runtime.

(** [const crypto = require('crypto')] *)
Definition crypto : CryptoBinding := CryptoNode.

Definition generateMessageId (email : ParsedEmail.t) : Eff string :=
  if Js.truthy (ParsedEmail.messageId email) then
    mret (Js.replace_angle_g (default "" (ParsedEmail.messageId email)))
  else
    buf ← crypto_randomBytes rt crypto 16;
    now ← Date_now rt;
    mret (Js.toString_hex buf ++ "-" ++ Js.number_toString now).

Definition parseEmail (emailStream : list byte) : Eff ParsedEmail.t :=
  run_simpleParser rt (FromBuffer emailStream).

Definition constructObjectMetadata (parsedEmail : ParsedEmail.t) (messageId : string)
    : Eff ObjectMetadata.t :=
  date ← match ParsedEmail.date parsedEmail with
         | Some d => mret (IsoString d)
         | None => new_Date_toISOString rt
         end;
  mret {|
    ObjectMetadata.contentType := "message/rfc822";
    ObjectMetadata.resumable := false;
    ObjectMetadata.metadata := {|
      ObjectMetadata.messageId := messageId;
      ObjectMetadata.subject := Js.or_else (ParsedEmail.subject parsedEmail) "";
      ObjectMetadata.from :=
        Js.or_else (AddressObject.text <$> ParsedEmail.from parsedEmail) "";
      ObjectMetadata.to :=
        Js.or_else (AddressObject.text <$> ParsedEmail.to parsedEmail) "";
      ObjectMetadata.date := date
    |}
  |}.

Definition uploadEmailToStorage (emailBuffer : list byte)
    (objectMetadata : ObjectMetadata.t) (bucketName objectName : string) : Eff unit :=
  storage_save rt bucketName objectName emailBuffer;;
  storage_setMetadata rt bucketName objectName objectMetadata.

(** The promise around the PassThrough: resolved with the
    concatenated chunks on its 'end', rejected on its 'error', and left
    unsettled when neither event comes. *)
Definition capture (messageStream : MessageStream) : Eff (list byte) :=
  match finish messageStream with
  | StreamEnds => mret (concat (chunks messageStream))
  | StreamErrors e => throw e
  | SourceErrors _ => never_settles
  end.

(** The [try] block of [save_email_in_bucket]. *)
Definition save_email_in_bucket_try (cfg : Cfg) (messageStream : MessageStream) : Eff unit :=
  rawEmailBuffer ← capture messageStream;
  email ← parseEmail rawEmailBuffer;
  messageId ← generateMessageId email;
  let bucketName := bucketName cfg in
  let objectName := "emails/" ++ messageId ++ ".eml" in
  objectMetadata ← constructObjectMetadata email messageId;
  uploadEmailToStorage rawEmailBuffer objectMetadata bucketName objectName;;
  put_storageReference {|
    StorageReference.bucketName := bucketName;
    StorageReference.objectName := objectName;
    StorageReference.messageId := messageId;
    StorageReference.storageUrl := "gs://" ++ bucketName ++ "/" ++ objectName
  |};;
  loginfo ("Email " ++ messageId ++ " successfully saved in GCP bucket: " ++
           bucketName ++ ", object: " ++ objectName);;
  if isSingleHandler cfg then
    loginfo "Single handler mode enabled, message is queued successfully.";;
    next (Some OK) None
  else
    loginfo "Proceeding to next handler after saving email in GCP Storage.";;
    next None None.

(** Its [catch] block. *)
Definition save_email_in_bucket_catch (error : Js.Error) : Eff unit :=
  logerror ("Failed to save email in GCP Storage: " ++ Js.message error);;
  next (Some DENYSOFT) (Some "Persistence error").

Definition save_email_in_bucket (cfg : Cfg) (connection : option Connection) : Eff unit :=
  match connection with
  | Some {| transaction := Some {| message_stream := Some messageStream |} |} =>
      try_catch (save_email_in_bucket_try cfg messageStream) save_email_in_bucket_catch
  | _ => next None None
  end.

End WithRuntime.
End GcpStoragePlugin.

(* --------------------------------------------------------------------- *)
(* Vocabulary of the statements                                           *)
(* --------------------------------------------------------------------- *)

(** The three calls the plugins make on the continuation. *)
Definition proceed : NextCall := {| code := None; reason := None |}.
Definition accept : NextCall := {| code := Some OK; reason := None |}.
Definition soft_reject : NextCall :=
  {| code := Some DENYSOFT; reason := Some "Persistence error" |}.

(** The call a run of the storage hook makes on the continuation: none
    when its [try] block waits forever. *)
Definition storage_call (rt : Runtime) (cfg : GcpStoragePlugin.Cfg)
    (connection : option Connection) (w : World) : option NextCall :=
  match connection with
  | Some {| transaction := Some {| message_stream := Some ms |} |} =>
      match fst (GcpStoragePlugin.save_email_in_bucket_try rt cfg ms w) with
      | inl (Thrown _) => Some soft_reject
      | inl Pending => None
      | inr _ => Some (if GcpStoragePlugin.isSingleHandler cfg then accept else proceed)
      end
  | _ => Some proceed
  end.

(** The call a run of the firestore hook makes on the continuation; its
    [try] block awaits nothing that stays unsettled
    ([persist_email_details_try_settles]). *)
Definition firestore_call (rt : Runtime) (cfg : FirestorePlugin.Cfg)
    (connection : option Connection) (w : World) : NextCall :=
  match connection with
  | Some {| transaction := Some tx |} =>
      match fst (FirestorePlugin.persist_email_details_try rt cfg tx w) with
      | inl _ => soft_reject
      | inr _ => accept
      end
  | _ => proceed
  end.

(** [w'] differs from [w] at most in how much entropy and how many clock
    readings were consumed. *)
Definition only_counters (w w' : World) : Prop :=
  bucket_objects w' = bucket_objects w ∧
  recipient_collections w' = recipient_collections w ∧
  metadata_documents w' = metadata_documents w ∧
  notes_storageReference w' = notes_storageReference w ∧
  service_calls w' = service_calls w ∧
  log w' = log w ∧
  next_calls w' = next_calls w.

(** Storage hook: where the object goes, what is published, and the call
    after a completed [try] block. *)
Definition object_key (cfg : GcpStoragePlugin.Cfg) (id : string) : string * string :=
  (GcpStoragePlugin.bucketName cfg, "emails/" ++ id ++ ".eml").

Definition published_reference (cfg : GcpStoragePlugin.Cfg) (id : string)
    : StorageReference.t :=
  {| StorageReference.bucketName := GcpStoragePlugin.bucketName cfg;
     StorageReference.objectName := "emails/" ++ id ++ ".eml";
     StorageReference.messageId := id;
     StorageReference.storageUrl :=
       "gs://" ++ GcpStoragePlugin.bucketName cfg ++ "/" ++ ("emails/" ++ id ++ ".eml") |}.

Definition success_call (cfg : GcpStoragePlugin.Cfg) : NextCall :=
  {| code := if GcpStoragePlugin.isSingleHandler cfg then Some OK else None;
     reason := None |}.

(** Firestore hook: what the parser is handed, the recipient documents
    the query returns for an address, the address queried, and the path
    of the document set. *)
Definition parser_input (tx : Transaction) : ParserInput :=
  match message_stream tx with
  | Some s => FromStream s
  | None => FromUndefined
  end.

Definition matching_recipients (cfg : FirestorePlugin.Cfg) (w : World) (address : string)
    : list RecipientDoc :=
  filter (λ d, notifications_email d = address)
    (default [] (recipient_collections w
                   !! FirestorePlugin.merchantsPaymentNotificationsCollection cfg)).

Definition to_text (email : ParsedEmail.t) : string :=
  Js.or_else (AddressObject.text <$> ParsedEmail.to email) "".

Definition document_path (cfg : FirestorePlugin.Cfg) (ref : RecipientDoc) (id : string)
    : DocPath :=
  (FirestorePlugin.merchantsPaymentNotificationsCollection cfg, doc_id ref,
   FirestorePlugin.merchantNotificationCollection cfg, id).

(** [storageReference ? storageReference.messageId : generateMessageId(email)],
    the third line of the firestore [try] block, on its own. *)
Definition resolve_messageId (rt : Runtime) (storageReference : option StorageReference.t)
    (email : ParsedEmail.t) : Eff string :=
  match storageReference with
  | Some r => mret (StorageReference.messageId r)
  | None => FirestorePlugin.generateMessageId rt email
  end.

(** The identifier a message has before any is generated for it. *)
Definition carried_identifier (storageReference : option StorageReference.t)
    (email : ParsedEmail.t) : option string :=
  match storageReference with
  | Some r => Some (StorageReference.messageId r)
  | None =>
      if Js.truthy (ParsedEmail.messageId email)
      then Some (Js.replace_angle_g (default "" (ParsedEmail.messageId email)))
      else None
  end.

(** The spec's words for an embedded identifier: the enclosing angle
    brackets are stripped, a leading "<" and a trailing ">", and the rest
    is returned verbatim. *)
Fixpoint strip_trailing_angle_spec (s : string) : string :=
  match s with
  | EmptyString => EmptyString
  | String c EmptyString => if Ascii.eqb c ">" then EmptyString else s
  | String c r => String c (strip_trailing_angle_spec r)
  end.

Definition strip_enclosing_angle_spec (s : string) : string :=
  match s with
  | String c r => if Ascii.eqb c "<" then strip_trailing_angle_spec r
                  else strip_trailing_angle_spec s
  | EmptyString => EmptyString
  end.

(* --------------------------------------------------------------------- *)
(* A sample deployment                                                    *)
(* --------------------------------------------------------------------- *)

Module Sample.

Definition mailbox (a : string) : AddressObject.t :=
  {| AddressObject.text := a;
     AddressObject.value := [{| Address.address := Some a; Address.name := "" |}] |}.

(** No Message-ID header, subject "Hello", from x@y.com, to
    a@example.com, text body "hi", no attachment. *)
Definition hello (messageId : option string) : ParsedEmail.t :=
  {| ParsedEmail.messageId := messageId;
     ParsedEmail.subject := Some "Hello";
     ParsedEmail.from := Some (mailbox "x@y.com");
     ParsedEmail.to := Some (mailbox "a@example.com");
     ParsedEmail.cc := None;
     ParsedEmail.bcc := None;
     ParsedEmail.inReplyTo := None;
     ParsedEmail.date := None;
     ParsedEmail.attachments := Some [];
     ParsedEmail.text := Some "hi" |}.

Definition stream : MessageStream :=
  {| chunks := [[x68]; [x69]]; finish := StreamEnds |}.

Definition tx : Transaction := {| message_stream := Some stream |}.

Definition connection : option Connection := Some {| transaction := Some tx |}.

(** A runtime in which the parser answers with [email] and no service
    call is rejected. *)
Definition runtime (crypto : CryptoBinding) (email : ParsedEmail.t) : Runtime :=
  {| entropy := λ n, match n with 0 => x00 | 1 => xab | _ => x10 end;
     clock := λ n, (1730000000000 + Z.of_nat n)%Z;
     faults := λ _, None;
     simpleParser := λ _ _, inr email;
     global_crypto := crypto |}.

(** Haraka compiles a plugin file in a context of its own, which provides
    [require], [exports], [server], [Buffer], the timers and the hook
    constants; [crypto] is not among them. *)
Definition haraka (email : ParsedEmail.t) : Runtime := runtime CryptoUnbound email.

(** The same, with the upload rejected. *)
Definition upload_rejected (email : ParsedEmail.t) : Runtime :=
  {| entropy := entropy (haraka email);
     clock := clock (haraka email);
     faults := λ n, match n with
                    | 0 => Some (Js.ServiceError "upload rejected")
                    | _ => None
                    end;
     simpleParser := simpleParser (haraka email);
     global_crypto := CryptoUnbound |}.

Definition storage_cfg : GcpStoragePlugin.Cfg :=
  {| GcpStoragePlugin.bucketName := "mail-archive";
     GcpStoragePlugin.isSingleHandler := false |}.

Definition firestore_cfg : FirestorePlugin.Cfg :=
  {| FirestorePlugin.merchantsPaymentNotificationsCollection := "merchants";
     FirestorePlugin.merchantNotificationCollection := "notifications" |}.

Definition world (recipients : list RecipientDoc)
    (storageReference : option StorageReference.t) : World :=
  {| bucket_objects := ∅;
     recipient_collections := {[ "merchants" := recipients ]};
     metadata_documents := ∅;
     notes_storageReference := storageReference;
     entropy_used := 0;
     clock_reads := 0;
     service_calls := 0;
     log := [];
     next_calls := [] |}.

Definition merchant : RecipientDoc :=
  {| doc_id := "m1"; notifications_email := "a@example.com" |}.

Definition reference : StorageReference.t :=
  {| StorageReference.bucketName := "mail-archive";
     StorageReference.objectName := "emails/abc@x.eml";
     StorageReference.messageId := "abc@x";
     StorageReference.storageUrl := "gs://mail-archive/emails/abc@x.eml" |}.

End Sample.

From Stdlib Require DecimalPos DecimalZ.

(* --------------------------------------------------------------------- *)
(* The init and data hooks                                                *)
(* --------------------------------------------------------------------- *)

(** The options object a client is constructed with.  [keyFilename]
    comes from a spread: the outer [option] says whether the property
    exists, the inner one is its value. *)
Module FirestoreClient.
Record options := {
  projectId : option string;
  databaseId : option string;
  keyFilename : option (option string)
}.
End FirestoreClient.

Module StorageClient.
Record options := {
  projectId : option string;
  keyFilename : option (option string)
}.
End StorageClient.

(** [server.notes]: the client handles, one per process. *)
Record ServerNotes := {
  firestore : option FirestoreClient.options;
  gcpStorage : option StorageClient.options
}.

(** The hooks of firestore.js other than the queue hook. *)
Module FirestoreHooks.

(** [this.cfg.gcp] *)
Record Gcp := {
  projectId : option string;
  firestoreDbId : option string;
  isLocalEnv : bool;
  keyFilePath : option string
}.

Definition initialize_firestore (gcp : Gcp) (server : ServerNotes) : Eff ServerNotes :=
  server' ← match firestore server with
            | None =>
                loginfo "Firestore client initialized successfully";;
                mret {| firestore :=
                          Some {| FirestoreClient.projectId := projectId gcp;
                                  FirestoreClient.databaseId := firestoreDbId gcp;
                                  FirestoreClient.keyFilename :=
                                    if isLocalEnv gcp then Some (keyFilePath gcp) else None |};
                        gcpStorage := gcpStorage server |}
            | Some _ => mret server
            end;
  next None None;;
  mret server'.

(** [connection.transaction.parse_body = true; next()], with the flag
    passed in and returned. *)
Definition enable_transaction_body_parse (connection : option Connection)
    (parse_body : bool) : Eff bool :=
  match connection with
  | None =>
      throw (Js.TypeError "Cannot read properties of undefined (reading 'transaction')")
  | Some {| transaction := None |} =>
      throw (Js.TypeError "Cannot set properties of undefined (setting 'parse_body')")
  | Some {| transaction := Some _ |} =>
      next None None;;
      mret true
  end.

End FirestoreHooks.

(** The hooks of gcp_storage.js other than the queue hook. *)
Module GcpStorageHooks.

(** [this.cfg.gcp] *)
Record Gcp := {
  projectId : option string;
  isLocalEnv : bool;
  keyFilePath : option string
}.

Definition initialize_storage (gcp : Gcp) (server : ServerNotes) : Eff ServerNotes :=
  server' ← match gcpStorage server with
            | None =>
                loginfo "GCP Storage client initialized successfully";;
                mret {| firestore := firestore server;
                        gcpStorage :=
                          Some {| StorageClient.projectId := projectId gcp;
                                  StorageClient.keyFilename :=
                                    if isLocalEnv gcp then Some (keyFilePath gcp) else None |} |}
            | Some _ => mret server
            end;
  next None None;;
  mret server'.

Definition enable_transaction_body_parse (connection : option Connection)
    (parse_body : bool) : Eff bool :=
  match connection with
  | None =>
      throw (Js.TypeError "Cannot read properties of undefined (reading 'transaction')")
  | Some {| transaction := None |} =>
      throw (Js.TypeError "Cannot set properties of undefined (setting 'parse_body')")
  | Some {| transaction := Some _ |} =>
      next None None;;
      mret true
  end.

End GcpStorageHooks.

(* --------------------------------------------------------------------- *)
(* The ends of the two [try] blocks                                       *)
(* --------------------------------------------------------------------- *)

(** What the storage [try] block does once the upload has resolved. *)
Definition storage_tail (cfg : GcpStoragePlugin.Cfg) (messageId : string) : Eff unit :=
  put_storageReference (published_reference cfg messageId);;
  loginfo ("Email " ++ messageId ++ " successfully saved in GCP bucket: " ++
           GcpStoragePlugin.bucketName cfg ++ ", object: " ++
           ("emails/" ++ messageId ++ ".eml"));;
  if GcpStoragePlugin.isSingleHandler cfg then
    loginfo "Single handler mode enabled, message is queued successfully.";;
    next (Some OK) None
  else
    loginfo "Proceeding to next handler after saving email in GCP Storage.";;
    next None None.

(** What the firestore [try] block does once the document is set. *)
Definition firestore_tail (messageId : string) : Eff unit :=
  loginfo ("Message details for " ++ messageId ++
           " successfully persisted in Firestore");;
  next (Some OK) None.

(** The worlds the storage [try] block passes through: [w2] is the world
    once the object metadata is built, [k] the number of service calls
    made before the run. *)
Definition after_save (cfg : GcpStoragePlugin.Cfg) (id : string) (buffer : list byte)
    (k : nat) (w2 : World) : World :=
  set_bucket_objects
    (insert (object_key cfg id) {| body := buffer; attached := None |})
    (set_service_calls (S k) w2).

Definition after_setMetadata (cfg : GcpStoragePlugin.Cfg) (id : string)
    (buffer : list byte) (meta : ObjectMetadata.t) (k : nat) (w2 : World) : World :=
  set_bucket_objects
    (alter (λ o, {| body := body o; attached := Some meta |}) (object_key cfg id))
    (set_service_calls (S (S k)) (after_save cfg id buffer k w2)).

(** The world of the firestore [try] block once the document is set. *)
Definition after_set (path : DocPath) (details : MessageDetails.t) (k : nat) (w2 : World)
    : World :=
  set_metadata_documents (insert path details)
    (set_service_calls (S (S k)) (set_service_calls (S k) w2)).

(** A clock that never runs backwards. *)
Definition monotone_clock (rt : Runtime) : Prop :=
  ∀ i j : nat, (i ≤ j)%nat → (clock rt i ≤ clock rt j)%Z.

(** The instant a date value stands for. *)
Definition instant (d : DateValue) : Z :=
  match d with
  | DateObject ms | IsoString ms => ms
  end.

(** The value of a hexadecimal digit as [toString('hex')] writes it. *)
Definition hex_value (c : ascii) : N :=
  match c with
  | "0" => 0 | "1" => 1 | "2" => 2 | "3" => 3 | "4" => 4 | "5" => 5
  | "6" => 6 | "7" => 7 | "8" => 8 | "9" => 9 | "a" => 10 | "b" => 11
  | "c" => 12 | "d" => 13 | "e" => 14 | _ => 15
  end%char%N.


(* --------------------------------------------------------------------- *)
(* More of the sample deployment                                          *)
(* --------------------------------------------------------------------- *)

Module Scenario.

(** The sample runtime with the second service call of a run rejected. *)
Definition second_call_rejected (email : ParsedEmail.t) : Runtime :=
  {| entropy := entropy (Sample.haraka email);
     clock := clock (Sample.haraka email);
     faults := λ n, match n with
                    | 1 => Some (Js.ServiceError "metadata rejected")
                    | _ => None
                    end;
     simpleParser := simpleParser (Sample.haraka email);
     global_crypto := CryptoUnbound |}.

(** Two recipient documents with the same notification address. *)
Definition second_merchant : RecipientDoc :=
  {| doc_id := "m2"; notifications_email := "a@example.com" |}.

Definition stream_connection : option Connection :=
  Some {| transaction := Some {| message_stream := Some Sample.stream |} |}.

(** The sample message, read from a stream that fails after its first
    chunk: 'error' on the message stream itself, before 'end'. *)
Definition failing_stream : MessageStream :=
  {| chunks := [[x68]]; finish := SourceErrors (Js.ServiceError "read failed") |}.

Definition failing_connection : option Connection :=
  Some {| transaction := Some {| message_stream := Some failing_stream |} |}.

End Scenario.


(* ===================================================================== *)
(*  Properties                                                            *)
(* ===================================================================== *)

Example replace_angle_g_abc : Js.replace_angle_g "<abc@x>" = "abc@x".
Proof. reflexivity. Qed.

Example toString_hex_sample :
  Js.toString_hex [x00; x0f; xa5; xff] = "000fa5ff".
Proof. reflexivity. Qed.

Example number_toString_sample : Js.number_toString 1730000000000 = "1730000000000".
Proof. reflexivity. Qed.

(** ['hi'.length], ['h€llo'.length] and ['😀'.length]. *)
Example length_samples :
  Js.length "hi" = 2 ∧ Js.length "h€llo" = 5 ∧ String.length "h€llo" = 7 ∧
  Js.length "😀" = 2.
Proof. repeat split. Qed.

(* --------------------------------------------------------------------- *)
(* Reasoning about runs                                                   *)
(* --------------------------------------------------------------------- *)

Ltac eff_unfold :=
  unfold mbind, Eff_bind, mret, Eff_ret, try_catch, throw, never_settles, gets, modify in *.

Lemma only_counters_refl w : only_counters w w.
Proof. repeat split. Qed.

Lemma only_counters_trans w1 w2 w3 :
  only_counters w1 w2 → only_counters w2 w3 → only_counters w1 w3.
Proof.
  unfold only_counters. intros (?&?&?&?&?&?&?) (?&?&?&?&?&?&?).
  repeat split; congruence.
Qed.

Section Helpers.
Variable rt : Runtime.

Lemma Date_now_run w :
  Date_now rt w = (inr (clock rt (clock_reads w)), set_clock_reads (S (clock_reads w)) w).
Proof. reflexivity. Qed.

Lemma new_Date_toISOString_run w :
  new_Date_toISOString rt w =
  (inr (IsoString (clock rt (clock_reads w))), set_clock_reads (S (clock_reads w)) w).
Proof. reflexivity. Qed.

Lemma randomBytes_node_run n w :
  crypto_randomBytes rt CryptoNode n w =
  (inr (entropy rt <$> seq (entropy_used w) n), set_entropy_used (entropy_used w + n) w).
Proof. reflexivity. Qed.

(** An embedded identifier is returned with every "<" and ">" removed,
    and resolving it touches nothing. *)
Lemma storage_generateMessageId_embedded email w :
  Js.truthy (ParsedEmail.messageId email) = true →
  GcpStoragePlugin.generateMessageId rt email w =
  (inr (Js.replace_angle_g (default "" (ParsedEmail.messageId email))), w).
Proof. intros H. unfold GcpStoragePlugin.generateMessageId. rewrite H. reflexivity. Qed.

Lemma firestore_generateMessageId_embedded email w :
  Js.truthy (ParsedEmail.messageId email) = true →
  FirestorePlugin.generateMessageId rt email w =
  (inr (Js.replace_angle_g (default "" (ParsedEmail.messageId email))), w).
Proof. intros H. unfold FirestorePlugin.generateMessageId. rewrite H. reflexivity. Qed.

(** Without one, the storage plugin draws 16 bytes and reads the clock. *)
Lemma storage_generateMessageId_generated email w :
  Js.truthy (ParsedEmail.messageId email) = false →
  GcpStoragePlugin.generateMessageId rt email w =
  (inr (Js.toString_hex (entropy rt <$> seq (entropy_used w) 16) ++ "-" ++
        Js.number_toString (clock rt (clock_reads w))),
   set_clock_reads (S (clock_reads w)) (set_entropy_used (entropy_used w + 16) w)).
Proof. intros H. unfold GcpStoragePlugin.generateMessageId. rewrite H. reflexivity. Qed.

Lemma storage_generateMessageId_returns email w :
  ∃ id w1, GcpStoragePlugin.generateMessageId rt email w = (inr id, w1) ∧
           only_counters w w1.
Proof.
  destruct (Js.truthy (ParsedEmail.messageId email)) eqn:H.
  - eexists _, _. split; [by apply storage_generateMessageId_embedded|].
    apply only_counters_refl.
  - eexists _, _. split; [by apply storage_generateMessageId_generated|].
    repeat split.
Qed.

Lemma constructObjectMetadata_returns email id w :
  ∃ meta w1, GcpStoragePlugin.constructObjectMetadata rt email id w = (inr meta, w1) ∧
             only_counters w w1 ∧
             ObjectMetadata.contentType meta = "message/rfc822" ∧
             ObjectMetadata.messageId (ObjectMetadata.metadata meta) = id.
Proof.
  unfold GcpStoragePlugin.constructObjectMetadata.
  destruct (ParsedEmail.date email); eexists _, _; (split; [reflexivity|]);
    repeat split.
Qed.

End Helpers.

(* --------------------------------------------------------------------- *)
(* The storage hook, case by case                                         *)
(* --------------------------------------------------------------------- *)

Section StorageRuns.
Variable rt : Runtime.
Variable cfg : GcpStoragePlugin.Cfg.

(** What a run of the [try] block that reaches its end has done. *)
Lemma save_email_in_bucket_try_returns ms w w' :
  GcpStoragePlugin.save_email_in_bucket_try rt cfg ms w = (inr tt, w') →
  ∃ email id w1 meta,
    finish ms = StreamEnds ∧
    simpleParser rt (FromBuffer (concat (chunks ms))) parser_options = inr email ∧
    GcpStoragePlugin.generateMessageId rt email w = (inr id, w1) ∧
    faults rt (service_calls w) = None ∧
    faults rt (S (service_calls w)) = None ∧
    ObjectMetadata.messageId (ObjectMetadata.metadata meta) = id ∧
    bucket_objects w' =
      alter (λ o, {| body := body o; attached := Some meta |}) (object_key cfg id)
        (<[object_key cfg id := {| body := concat (chunks ms); attached := None |}]>
           (bucket_objects w)) ∧
    notes_storageReference w' = Some (published_reference cfg id) ∧
    next_calls w' = (next_calls w ++ [success_call cfg])%list ∧
    metadata_documents w' = metadata_documents w ∧
    recipient_collections w' = recipient_collections w.
Proof.
  unfold GcpStoragePlugin.save_email_in_bucket_try, GcpStoragePlugin.capture,
    GcpStoragePlugin.parseEmail, run_simpleParser.
  eff_unfold.
  destruct (finish ms) eqn:Hfin; [|discriminate..].
  destruct (simpleParser rt _ _) as [e|email] eqn:Hparse; [discriminate|].
  destruct (storage_generateMessageId_returns rt email w) as (id & w1 & Hid & F1).
  rewrite Hid.
  destruct (constructObjectMetadata_returns rt email id w1) as (meta & w2 & Hmeta & F2 & _ & Hmid).
  rewrite Hmeta.
  pose proof (only_counters_trans _ _ _ F1 F2) as (Hb & Hr & Hm & Hn & Hs & Hl & Hc).
  unfold GcpStoragePlugin.uploadEmailToStorage, storage_save, storage_setMetadata,
    service_call, put_storageReference, loginfo, next.
  eff_unfold. cbn.
  rewrite Hs.
  destruct (faults rt (service_calls w)) eqn:Hf1; [discriminate|]. cbn.
  destruct (faults rt (S (service_calls w))) eqn:Hf2; [discriminate|]. cbn.
  intros Hrun. exists email, id, w1, meta.
  destruct (GcpStoragePlugin.isSingleHandler cfg) eqn:Hsingle;
    injection Hrun as <-; cbn; rewrite ?Hb, ?Hr, ?Hm, ?Hc;
    unfold success_call; rewrite ?Hsingle; repeat split; done.
Qed.

(** What a run of the [try] block that throws has done, and why it threw. *)
Lemma save_email_in_bucket_try_throws ms w e w' :
  GcpStoragePlugin.save_email_in_bucket_try rt cfg ms w = (inl (Thrown e), w') →
  notes_storageReference w' = notes_storageReference w ∧
  next_calls w' = next_calls w ∧
  log w' = log w ∧
  metadata_documents w' = metadata_documents w ∧
  (finish ms = StreamErrors e ∨
   simpleParser rt (FromBuffer (concat (chunks ms))) parser_options = inl e ∨
   faults rt (service_calls w) = Some e ∨
   faults rt (S (service_calls w)) = Some e).
Proof.
  unfold GcpStoragePlugin.save_email_in_bucket_try, GcpStoragePlugin.capture,
    GcpStoragePlugin.parseEmail, run_simpleParser.
  eff_unfold.
  destruct (finish ms) eqn:Hfin.
  3: discriminate.
  2:{ intros [= -> ->]. repeat split; auto. }
  destruct (simpleParser rt _ _) as [e'|email] eqn:Hparse.
  { intros [= -> ->]. repeat split; auto. }
  destruct (storage_generateMessageId_returns rt email w) as (id & w1 & Hid & F1).
  rewrite Hid.
  destruct (constructObjectMetadata_returns rt email id w1) as (meta & w2 & Hmeta & F2 & _ & Hmid).
  rewrite Hmeta.
  pose proof (only_counters_trans _ _ _ F1 F2) as (Hb & Hr & Hm & Hn & Hs & Hl & Hc).
  unfold GcpStoragePlugin.uploadEmailToStorage, storage_save, storage_setMetadata,
    service_call, put_storageReference, loginfo, next.
  eff_unfold. cbn.
  rewrite Hs.
  destruct (faults rt (service_calls w)) eqn:Hf1; cbn.
  { intros [= -> <-]. cbn. repeat split; auto. }
  destruct (faults rt (S (service_calls w))) eqn:Hf2; cbn.
  { intros [= -> <-]. cbn. repeat split; auto. }
  destruct (GcpStoragePlugin.isSingleHandler cfg); discriminate.
Qed.

(** The [try] block waits forever exactly when the message stream fails
    before it ends; nothing has been done by then. *)
Lemma save_email_in_bucket_try_pending ms w :
  (∀ e, finish ms = SourceErrors e →
        GcpStoragePlugin.save_email_in_bucket_try rt cfg ms w = (inl Pending, w)) ∧
  (∀ w', GcpStoragePlugin.save_email_in_bucket_try rt cfg ms w = (inl Pending, w') →
         ∃ e, finish ms = SourceErrors e).
Proof.
  unfold GcpStoragePlugin.save_email_in_bucket_try, GcpStoragePlugin.capture,
    GcpStoragePlugin.parseEmail, run_simpleParser.
  eff_unfold. split.
  { intros e ->. reflexivity. }
  intros w'.
  destruct (finish ms) eqn:Hfin; [|discriminate|by eauto].
  destruct (simpleParser rt _ _) as [e'|email] eqn:Hparse; [discriminate|].
  destruct (storage_generateMessageId_returns rt email w) as (id & w1 & Hid & F1).
  rewrite Hid.
  destruct (constructObjectMetadata_returns rt email id w1) as (meta & w2 & Hmeta & F2 & _ & Hmid).
  rewrite Hmeta.
  unfold GcpStoragePlugin.uploadEmailToStorage, storage_save, storage_setMetadata,
    service_call, put_storageReference, loginfo, next.
  eff_unfold. cbn.
  destruct (faults rt (service_calls w2)) eqn:Hf1; cbn; [discriminate|].
  destruct (faults rt (S (service_calls w2))) eqn:Hf2; cbn; [discriminate|].
  destruct (GcpStoragePlugin.isSingleHandler cfg); discriminate.
Qed.

(** The hook itself. *)
Lemma save_email_in_bucket_with_stream ms w :
  GcpStoragePlugin.save_email_in_bucket rt cfg
    (Some {| transaction := Some {| message_stream := Some ms |} |}) w =
  try_catch (GcpStoragePlugin.save_email_in_bucket_try rt cfg ms)
    GcpStoragePlugin.save_email_in_bucket_catch w.
Proof. reflexivity. Qed.

Lemma save_email_in_bucket_catch_run e w :
  GcpStoragePlugin.save_email_in_bucket_catch e w =
  (inr tt,
   set_next_calls
     (app (next_calls w) [{| code := Some DENYSOFT; reason := Some "Persistence error" |}])
     (set_log
        (app (log w) [(LOGERROR, "Failed to save email in GCP Storage: " ++ Js.message e)])
        w)).
Proof. reflexivity. Qed.

End StorageRuns.

(* --------------------------------------------------------------------- *)
(* The firestore hook, case by case                                       *)
(* --------------------------------------------------------------------- *)

Section FirestoreRuns.
Variable rt : Runtime.
Variable cfg : FirestorePlugin.Cfg.

Lemma firestore_generateMessageId_cases email w :
  (∃ id w1, FirestorePlugin.generateMessageId rt email w = (inr id, w1) ∧
            only_counters w w1) ∨
  (∃ e, FirestorePlugin.generateMessageId rt email w = (inl (Thrown e), w) ∧
        Js.truthy (ParsedEmail.messageId email) = false ∧
        global_crypto rt ≠ CryptoNode).
Proof.
  unfold FirestorePlugin.generateMessageId, FirestorePlugin.crypto.
  destruct (Js.truthy _).
  - left. eexists _, _. split; [reflexivity|apply only_counters_refl].
  - destruct (global_crypto rt) eqn:Hc.
    + right. eexists. by repeat split.
    + right. eexists. by repeat split.
    + left. eexists _, _. split; [reflexivity|]. repeat split.
Qed.

Lemma resolve_messageId_cases ref email w :
  (∃ id w1, resolve_messageId rt ref email w = (inr id, w1) ∧ only_counters w w1) ∨
  (∃ e, resolve_messageId rt ref email w = (inl (Thrown e), w)).
Proof.
  destruct ref as [r|]; cbn.
  - left. eexists _, _. split; [reflexivity|apply only_counters_refl].
  - destruct (firestore_generateMessageId_cases email w) as [?|(e & ? & _)]; eauto.
Qed.

Lemma constructMessageDetails_returns email id ref w :
  ∃ details w1,
    FirestorePlugin.constructMessageDetails rt email id ref w = (inr details, w1) ∧
    only_counters w w1 ∧ entropy_used w1 = entropy_used w ∧
    MessageDetails.messageId details = id ∧
    MessageDetails.to details = to_text email ∧
    MessageDetails.bucketName details = StorageReference.bucketName <$> ref ∧
    MessageDetails.objectName details = StorageReference.objectName <$> ref ∧
    MessageDetails.storageUrl details = StorageReference.storageUrl <$> ref.
Proof.
  unfold FirestorePlugin.constructMessageDetails.
  destruct (ParsedEmail.date email); eexists _, _; (split; [reflexivity|]);
    repeat split.
Qed.

Lemma persist_email_details_try_eq tx :
  FirestorePlugin.persist_email_details_try rt cfg tx =
  (storageReference ← get_storageReference;
   email ← FirestorePlugin.parseEmail rt tx;
   messageId ← resolve_messageId rt storageReference email;
   messageDetails ← FirestorePlugin.constructMessageDetails rt email messageId storageReference;
   docs ← firestore_query_get rt (FirestorePlugin.merchantsPaymentNotificationsCollection cfg)
            (MessageDetails.to messageDetails);
   ref ← FirestorePlugin.first_doc_ref docs;
   firestore_doc_set rt (document_path cfg ref messageId) messageDetails;;
   loginfo ("Message details for " ++ messageId ++
            " successfully persisted in Firestore");;
   next (Some OK) None).
Proof. reflexivity. Qed.

(** What a run of the [try] block that reaches its end has done. *)
Lemma persist_email_details_try_returns tx w w' :
  FirestorePlugin.persist_email_details_try rt cfg tx w = (inr tt, w') →
  ∃ email id w1 details ref,
    simpleParser rt (parser_input tx) parser_options = inr email ∧
    resolve_messageId rt (notes_storageReference w) email w = (inr id, w1) ∧
    MessageDetails.messageId details = id ∧
    MessageDetails.bucketName details =
      StorageReference.bucketName <$> notes_storageReference w ∧
    MessageDetails.objectName details =
      StorageReference.objectName <$> notes_storageReference w ∧
    MessageDetails.storageUrl details =
      StorageReference.storageUrl <$> notes_storageReference w ∧
    head (matching_recipients cfg w (to_text email)) = Some ref ∧
    metadata_documents w' = <[document_path cfg ref id := details]> (metadata_documents w) ∧
    next_calls w' = (next_calls w ++ [{| code := Some OK; reason := None |}])%list ∧
    notes_storageReference w' = notes_storageReference w ∧
    recipient_collections w' = recipient_collections w ∧
    bucket_objects w' = bucket_objects w.
Proof.
  rewrite persist_email_details_try_eq.
  unfold FirestorePlugin.parseEmail, run_simpleParser, get_storageReference.
  fold (parser_input tx). eff_unfold.
  destruct (simpleParser rt _ _) as [e|email] eqn:Hparse; [discriminate|].
  destruct (resolve_messageId_cases (notes_storageReference w) email w)
    as [(id & w1 & Hid & F1)|(e & Hid)]; rewrite Hid; [|discriminate].
  destruct (constructMessageDetails_returns email id (notes_storageReference w) w1)
    as (details & w2 & Hd & F2 & _ & Hmid & Hto & Hbn & Hon & Hsu).
  rewrite Hd.
  pose proof (only_counters_trans _ _ _ F1 F2) as (Hb & Hr & Hm & Hn & Hs & Hl & Hc).
  unfold firestore_query_get, firestore_doc_set, service_call, loginfo, next,
    FirestorePlugin.first_doc_ref.
  eff_unfold. cbn.
  destruct (faults rt (service_calls w2)); [discriminate|]. cbn.
  rewrite Hr, Hto. fold (matching_recipients cfg w (to_text email)).
  destruct (matching_recipients cfg w (to_text email)) as [|ref rest] eqn:Hdocs;
    [discriminate|]. cbn.
  destruct (faults rt (S (service_calls w2))); [discriminate|]. cbn.
  intros [= <-]. exists email, id, w1, details, ref. cbn.
  rewrite Hm, Hc, Hn, Hr, Hb, Hdocs. repeat split; done.
Qed.

(** A run of the [try] block that throws has written nothing and has not
    called the continuation. *)
Lemma persist_email_details_try_throws tx w e w' :
  FirestorePlugin.persist_email_details_try rt cfg tx w = (inl (Thrown e), w') →
  metadata_documents w' = metadata_documents w ∧
  next_calls w' = next_calls w ∧
  log w' = log w ∧
  notes_storageReference w' = notes_storageReference w ∧
  recipient_collections w' = recipient_collections w.
Proof.
  rewrite persist_email_details_try_eq.
  unfold FirestorePlugin.parseEmail, run_simpleParser, get_storageReference.
  fold (parser_input tx). eff_unfold.
  destruct (simpleParser rt _ _) as [e'|email] eqn:Hparse.
  { intros [= <- <-]. by repeat split. }
  destruct (resolve_messageId_cases (notes_storageReference w) email w)
    as [(id & w1 & Hid & F1)|(e' & Hid)]; rewrite Hid.
  2:{ intros [= <- <-]. by repeat split. }
  destruct (constructMessageDetails_returns email id (notes_storageReference w) w1)
    as (details & w2 & Hd & F2 & _ & Hmid & Hto & _).
  rewrite Hd.
  pose proof (only_counters_trans _ _ _ F1 F2) as (Hb & Hr & Hm & Hn & Hs & Hl & Hc).
  unfold firestore_query_get, firestore_doc_set, service_call, loginfo, next,
    FirestorePlugin.first_doc_ref.
  eff_unfold. cbn.
  destruct (faults rt (service_calls w2)); cbn.
  { intros [= <- <-]. cbn. by repeat split. }
  destruct (filter _ _) as [|ref rest]; cbn.
  { intros [= <- <-]. cbn. by repeat split. }
  destruct (faults rt (S (service_calls w2))); cbn.
  { intros [= <- <-]. cbn. by repeat split. }
  discriminate.
Qed.

(** The firestore [try] block never waits forever: it returns or throws. *)
Lemma persist_email_details_try_settles tx w w' :
  FirestorePlugin.persist_email_details_try rt cfg tx w ≠ (inl Pending, w').
Proof.
  rewrite persist_email_details_try_eq.
  unfold FirestorePlugin.parseEmail, run_simpleParser, get_storageReference.
  fold (parser_input tx). eff_unfold.
  destruct (simpleParser rt _ _) as [e'|email] eqn:Hparse; [discriminate|].
  destruct (resolve_messageId_cases (notes_storageReference w) email w)
    as [(id & w1 & Hid & F1)|(e' & Hid)]; rewrite Hid; [|discriminate].
  destruct (constructMessageDetails_returns email id (notes_storageReference w) w1)
    as (details & w2 & Hd & _).
  rewrite Hd.
  unfold firestore_query_get, firestore_doc_set, service_call, loginfo, next,
    FirestorePlugin.first_doc_ref.
  eff_unfold. cbn.
  destruct (faults rt (service_calls w2)); cbn; [discriminate|].
  destruct (filter _ _) as [|ref rest]; cbn; [discriminate|].
  destruct (faults rt (S (service_calls w2))); cbn; discriminate.
Qed.

(** With no matching recipient document the [try] block throws. *)
Lemma persist_email_details_try_no_recipient tx w email :
  simpleParser rt (parser_input tx) parser_options = inr email →
  matching_recipients cfg w (to_text email) = [] →
  ∃ e w', FirestorePlugin.persist_email_details_try rt cfg tx w = (inl (Thrown e), w').
Proof.
  intros Hparse Hnone.
  destruct (FirestorePlugin.persist_email_details_try rt cfg tx w)
    as [[[e|]|[]] w'] eqn:Hrun.
  - eauto.
  - by apply persist_email_details_try_settles in Hrun.
  - apply persist_email_details_try_returns in Hrun
      as (email' & id & w1 & details & ref & Hparse' & _ & _ & _ & _ & _ & Hhead & _).
    rewrite Hparse in Hparse'. injection Hparse' as <-.
    rewrite Hnone in Hhead. discriminate.
Qed.

Lemma persist_email_details_with_transaction tx w :
  FirestorePlugin.persist_email_details rt cfg (Some {| transaction := Some tx |}) w =
  try_catch (FirestorePlugin.persist_email_details_try rt cfg tx)
    (FirestorePlugin.persist_email_details_catch) w.
Proof. reflexivity. Qed.

Lemma persist_email_details_catch_run e w :
  FirestorePlugin.persist_email_details_catch e w =
  (inr tt,
   set_next_calls
     (app (next_calls w) [{| code := Some DENYSOFT; reason := Some "Persistence error" |}])
     (set_log
        (app (log w)
           [(LOGERROR, "Failed to persist email details in Firestore: " ++ Js.message e)])
        w)).
Proof. reflexivity. Qed.

End FirestoreRuns.

(* --------------------------------------------------------------------- *)
(* The two [try] blocks, step by step                                     *)
(* --------------------------------------------------------------------- *)

Lemma save_email_in_bucket_try_run rt cfg ms w email :
  finish ms = StreamEnds →
  simpleParser rt (FromBuffer (concat (chunks ms))) parser_options = inr email →
  ∃ id w1 meta w2,
    GcpStoragePlugin.generateMessageId rt email w = (inr id, w1) ∧
    GcpStoragePlugin.constructObjectMetadata rt email id w1 = (inr meta, w2) ∧
    only_counters w w2 ∧
    ObjectMetadata.messageId (ObjectMetadata.metadata meta) = id ∧
    GcpStoragePlugin.save_email_in_bucket_try rt cfg ms w =
    match faults rt (service_calls w) with
    | Some e => (inl (Thrown e), set_service_calls (S (service_calls w)) w2)
    | None =>
        match faults rt (S (service_calls w)) with
        | Some e =>
            (inl (Thrown e), set_service_calls (S (S (service_calls w)))
                      (after_save cfg id (concat (chunks ms)) (service_calls w) w2))
        | None =>
            storage_tail cfg id
              (after_setMetadata cfg id (concat (chunks ms)) meta (service_calls w) w2)
        end
    end.
Proof.
  intros Hfin Hparse.
  destruct (storage_generateMessageId_returns rt email w) as (id & w1 & Hid & F1).
  destruct (constructObjectMetadata_returns rt email id w1)
    as (meta & w2 & Hmeta & F2 & _ & Hmid).
  exists id, w1, meta, w2.
  pose proof (only_counters_trans _ _ _ F1 F2) as F.
  split; [exact Hid|]. split; [exact Hmeta|]. split; [exact F|]. split; [exact Hmid|].
  destruct F as (_ & _ & _ & _ & Hs & _).
  unfold GcpStoragePlugin.save_email_in_bucket_try, GcpStoragePlugin.capture,
    GcpStoragePlugin.parseEmail, run_simpleParser.
  eff_unfold. rewrite Hfin, Hparse, Hid, Hmeta.
  unfold GcpStoragePlugin.uploadEmailToStorage, storage_save, storage_setMetadata,
    service_call.
  eff_unfold. cbn. rewrite Hs.
  destruct (faults rt (service_calls w)); [reflexivity|]. cbn.
  destruct (faults rt (S (service_calls w))); reflexivity.
Qed.

Lemma save_email_in_bucket_try_capture_fails rt cfg ms w e :
  finish ms = StreamErrors e →
  GcpStoragePlugin.save_email_in_bucket_try rt cfg ms w = (inl (Thrown e), w).
Proof.
  intros Hfin. unfold GcpStoragePlugin.save_email_in_bucket_try, GcpStoragePlugin.capture.
  eff_unfold. by rewrite Hfin.
Qed.

Lemma save_email_in_bucket_try_parse_fails rt cfg ms w e :
  finish ms = StreamEnds →
  simpleParser rt (FromBuffer (concat (chunks ms))) parser_options = inl e →
  GcpStoragePlugin.save_email_in_bucket_try rt cfg ms w = (inl (Thrown e), w).
Proof.
  intros Hfin Hparse.
  unfold GcpStoragePlugin.save_email_in_bucket_try, GcpStoragePlugin.capture,
    GcpStoragePlugin.parseEmail, run_simpleParser.
  eff_unfold. by rewrite Hfin, Hparse.
Qed.

Lemma persist_email_details_try_parse_fails rt cfg tx w e :
  simpleParser rt (parser_input tx) parser_options = inl e →
  FirestorePlugin.persist_email_details_try rt cfg tx w = (inl (Thrown e), w).
Proof.
  intros Hparse. rewrite persist_email_details_try_eq.
  unfold FirestorePlugin.parseEmail, run_simpleParser, get_storageReference.
  fold (parser_input tx). eff_unfold. by rewrite Hparse.
Qed.

Lemma persist_email_details_try_resolve_fails rt cfg tx w email e :
  simpleParser rt (parser_input tx) parser_options = inr email →
  resolve_messageId rt (notes_storageReference w) email w = (inl (Thrown e), w) →
  FirestorePlugin.persist_email_details_try rt cfg tx w = (inl (Thrown e), w).
Proof.
  intros Hparse Hid. rewrite persist_email_details_try_eq.
  unfold FirestorePlugin.parseEmail, run_simpleParser, get_storageReference.
  fold (parser_input tx). eff_unfold. by rewrite Hparse, Hid.
Qed.

Lemma persist_email_details_try_run rt cfg tx w email id w1 :
  simpleParser rt (parser_input tx) parser_options = inr email →
  resolve_messageId rt (notes_storageReference w) email w = (inr id, w1) →
  only_counters w w1 →
  ∃ details w2,
    FirestorePlugin.constructMessageDetails rt email id (notes_storageReference w) w1 =
      (inr details, w2) ∧
    only_counters w w2 ∧
    entropy_used w2 = entropy_used w1 ∧
    MessageDetails.messageId details = id ∧
    FirestorePlugin.persist_email_details_try rt cfg tx w =
    match faults rt (service_calls w) with
    | Some e => (inl (Thrown e), set_service_calls (S (service_calls w)) w2)
    | None =>
        match matching_recipients cfg w (to_text email) with
        | [] =>
            (inl (Thrown (Js.TypeError "Cannot read properties of undefined (reading 'ref')")),
             set_service_calls (S (service_calls w)) w2)
        | ref :: _ =>
            match faults rt (S (service_calls w)) with
            | Some e =>
                (inl (Thrown e), set_service_calls (S (S (service_calls w)))
                          (set_service_calls (S (service_calls w)) w2))
            | None =>
                firestore_tail id
                  (after_set (document_path cfg ref id) details (service_calls w) w2)
            end
        end
    end.
Proof.
  intros Hparse Hid F1.
  destruct (constructMessageDetails_returns rt email id (notes_storageReference w) w1)
    as (details & w2 & Hd & F2 & He & Hmid & Hto & _).
  exists details, w2.
  pose proof (only_counters_trans _ _ _ F1 F2) as F.
  split; [exact Hd|]. split; [exact F|]. split; [exact He|]. split; [exact Hmid|].
  destruct F as (_ & Hr & _ & _ & Hs & _).
  rewrite persist_email_details_try_eq.
  unfold FirestorePlugin.parseEmail, run_simpleParser, get_storageReference.
  fold (parser_input tx). eff_unfold. rewrite Hparse, Hid, Hd.
  unfold firestore_query_get, firestore_doc_set, service_call,
    FirestorePlugin.first_doc_ref.
  eff_unfold. cbn. rewrite Hs.
  destruct (faults rt (service_calls w)); [reflexivity|]. cbn.
  rewrite Hr, Hto. fold (matching_recipients cfg w (to_text email)).
  destruct (matching_recipients cfg w (to_text email)) as [|ref rest]; [reflexivity|]. cbn.
  destruct (faults rt (S (service_calls w))); reflexivity.
Qed.

Lemma resolve_messageId_carried_run rt ref email id w :
  carried_identifier ref email = Some id →
  resolve_messageId rt ref email w = (inr id, w).
Proof.
  destruct ref as [r|]; cbn.
  - by intros [= <-].
  - destruct (Js.truthy (ParsedEmail.messageId email)) eqn:Ht; [|discriminate].
    intros [= <-]. by apply firestore_generateMessageId_embedded.
Qed.

Ltac world_simpl :=
  cbn [bucket_objects recipient_collections metadata_documents notes_storageReference
       entropy_used clock_reads service_calls log next_calls
       set_bucket_objects set_metadata_documents set_notes_storageReference
       set_entropy_used set_clock_reads set_service_calls set_log set_next_calls
       after_save after_setMetadata after_set fst snd].

Lemma storage_tail_fst cfg id w : fst (storage_tail cfg id w) = inr tt.
Proof. unfold storage_tail. by destruct (GcpStoragePlugin.isSingleHandler cfg). Qed.

Lemma firestore_tail_fst id w : fst (firestore_tail id w) = inr tt.
Proof. reflexivity. Qed.

(* --------------------------------------------------------------------- *)
(* The continuation                                                       *)
(* --------------------------------------------------------------------- *)

(** The storage hook completes with one call on the continuation, or
    waits forever without one. *)
Lemma save_email_in_bucket_calls_next rt cfg connection w :
  match storage_call rt cfg connection w with
  | Some call =>
      fst (GcpStoragePlugin.save_email_in_bucket rt cfg connection w) = inr tt ∧
      next_calls (snd (GcpStoragePlugin.save_email_in_bucket rt cfg connection w)) =
      (next_calls w ++ [call])%list
  | None =>
      GcpStoragePlugin.save_email_in_bucket rt cfg connection w = (inl Pending, w)
  end.
Proof.
  destruct connection as [[[[[ms|]]|]]|]; try (split; reflexivity).
  rewrite save_email_in_bucket_with_stream. unfold storage_call, try_catch.
  destruct (GcpStoragePlugin.save_email_in_bucket_try rt cfg ms w)
    as [[[e|]|[]] w'] eqn:Hrun.
  - apply save_email_in_bucket_try_throws in Hrun as (_ & Hc & _).
    rewrite save_email_in_bucket_catch_run. cbn. by rewrite Hc.
  - destruct (proj2 (save_email_in_bucket_try_pending rt cfg ms w) w' Hrun) as [e Hfin].
    rewrite (proj1 (save_email_in_bucket_try_pending rt cfg ms w) e Hfin) in Hrun.
    by injection Hrun as <-.
  - apply save_email_in_bucket_try_returns in Hrun
      as (email & id & w1 & meta & _ & _ & _ & _ & _ & _ & _ & _ & Hc & _).
    cbn. rewrite Hc. split; [done|]. unfold success_call, accept, proceed.
    by destruct (GcpStoragePlugin.isSingleHandler cfg).
Qed.

Lemma save_email_in_bucket_calls_next_some rt cfg connection w call :
  storage_call rt cfg connection w = Some call →
  fst (GcpStoragePlugin.save_email_in_bucket rt cfg connection w) = inr tt ∧
  next_calls (snd (GcpStoragePlugin.save_email_in_bucket rt cfg connection w)) =
  (next_calls w ++ [call])%list.
Proof.
  intros Hcall.
  pose proof (save_email_in_bucket_calls_next rt cfg connection w) as Hcalls.
  by rewrite Hcall in Hcalls.
Qed.

Lemma success_call_not_soft_reject cfg : success_call cfg ≠ soft_reject.
Proof. unfold success_call. by destruct (GcpStoragePlugin.isSingleHandler cfg). Qed.

Lemma app_one_ne {A : Type} (l : list A) (x : A) : l ≠ (l ++ [x])%list.
Proof.
  intros H. rewrite <- (app_nil_r l) in H at 1. by apply app_inv_head in H.
Qed.

Lemma persist_email_details_calls_next rt cfg connection w :
  fst (FirestorePlugin.persist_email_details rt cfg connection w) = inr tt ∧
  next_calls (snd (FirestorePlugin.persist_email_details rt cfg connection w)) =
  (next_calls w ++ [firestore_call rt cfg connection w])%list.
Proof.
  destruct connection as [[[tx|]]|]; try (split; reflexivity).
  rewrite persist_email_details_with_transaction. unfold firestore_call, try_catch.
  destruct (FirestorePlugin.persist_email_details_try rt cfg tx w)
    as [[[e|]|[]] w'] eqn:Hrun.
  - apply persist_email_details_try_throws in Hrun as (_ & Hc & _).
    rewrite persist_email_details_catch_run. cbn. by rewrite Hc.
  - by apply persist_email_details_try_settles in Hrun.
  - apply persist_email_details_try_returns in Hrun
      as (email & id & w1 & details & ref & _ & _ & _ & _ & _ & _ & _ & _ & Hc & _).
    cbn. by rewrite Hc.
Qed.

(** C4.  The firestore hook always completes and calls the continuation
    exactly once: the soft rejection when its [try] block threw, whatever
    it threw, [next(OK)] when the block reached its end, [next()] on the
    guard path.  The storage hook does the same except when the message
    stream emits 'error' before it ends: the capture promise listens to
    the PassThrough only, [pipe] hands no error on, the promise never
    settles, the catch block is not reached, and the hook neither
    completes nor calls the continuation.  The sample message read from
    a stream that fails after its first chunk leaves the continuation
    uncalled and the log empty. *)
Theorem C4_continuation_uncalled_on_stream_failure rt :
  (∀ cfg connection w,
     let r := FirestorePlugin.persist_email_details rt cfg connection w in
     fst r = inr tt ∧
     (∃ call, next_calls (snd r) = (next_calls w ++ [call])%list ∧
        call = firestore_call rt cfg connection w) ∧
     (∀ tx, connection = Some {| transaction := Some tx |} →
        match fst (FirestorePlugin.persist_email_details_try rt cfg tx w) with
        | inl (Thrown e) => next_calls (snd r) = (next_calls w ++ [soft_reject])%list
        | inl Pending => False
        | inr _ => next_calls (snd r) = (next_calls w ++ [accept])%list
        end) ∧
     ((∀ tx, connection ≠ Some {| transaction := Some tx |}) →
      next_calls (snd r) = (next_calls w ++ [proceed])%list)) ∧
  (∀ cfg connection w,
     let r := GcpStoragePlugin.save_email_in_bucket rt cfg connection w in
     (∀ ms, connection = Some {| transaction := Some {| message_stream := Some ms |} |} →
        match fst (GcpStoragePlugin.save_email_in_bucket_try rt cfg ms w) with
        | inl (Thrown e) =>
            fst r = inr tt ∧ next_calls (snd r) = (next_calls w ++ [soft_reject])%list
        | inl Pending => (∃ e, finish ms = SourceErrors e) ∧ r = (inl Pending, w)
        | inr _ =>
            fst r = inr tt ∧ next_calls (snd r) = (next_calls w ++ [success_call cfg])%list
        end) ∧
     ((∀ ms, connection ≠
               Some {| transaction := Some {| message_stream := Some ms |} |}) →
      fst r = inr tt ∧ next_calls (snd r) = (next_calls w ++ [proceed])%list)) ∧
  (∀ cfg ms e w,
     finish ms = SourceErrors e →
     GcpStoragePlugin.save_email_in_bucket rt cfg
       (Some {| transaction := Some {| message_stream := Some ms |} |}) w =
     (inl Pending, w)) ∧
  (let r := GcpStoragePlugin.save_email_in_bucket (Sample.haraka (Sample.hello None))
              Sample.storage_cfg Scenario.failing_connection
              (Sample.world [Sample.merchant] None) in
   fst r = inl Pending ∧ next_calls (snd r) = [] ∧ log (snd r) = []).
Proof.
  split; [|split; [|split]].
  - intros cfg connection w r.
    destruct (persist_email_details_calls_next rt cfg connection w) as [Hret Hcalls].
    split; [exact Hret|]. split; [eauto|]. split.
    + intros tx ->. subst r. rewrite Hcalls. unfold firestore_call.
      destruct (FirestorePlugin.persist_email_details_try rt cfg tx w)
        as [[[e|]|[]] w'] eqn:Hrun; cbn [fst]; try reflexivity.
      by apply persist_email_details_try_settles in Hrun.
    + intros Hskip. subst r. rewrite Hcalls.
      destruct connection as [[[tx|]]|]; try reflexivity.
      by destruct (Hskip tx).
  - intros cfg connection w r. split.
    + intros ms ->. subst r.
      pose proof (save_email_in_bucket_calls_next rt cfg
                    (Some {| transaction := Some {| message_stream := Some ms |} |}) w)
        as Hcalls.
      unfold storage_call in Hcalls.
      destruct (GcpStoragePlugin.save_email_in_bucket_try rt cfg ms w)
        as [[[e|]|[]] w'] eqn:Hrun; cbn [fst] in *.
      * exact Hcalls.
      * split; [|exact Hcalls].
        exact (proj2 (save_email_in_bucket_try_pending rt cfg ms w) w' Hrun).
      * unfold success_call. unfold accept, proceed in Hcalls.
        by destruct (GcpStoragePlugin.isSingleHandler cfg).
    + intros Hskip. subst r.
      destruct connection as [[[[[ms|]]|]]|]; try (split; reflexivity).
      by destruct (Hskip ms).
  - intros cfg ms e w Hfin.
    rewrite save_email_in_bucket_with_stream. unfold try_catch.
    by rewrite (proj1 (save_email_in_bucket_try_pending rt cfg ms w) e Hfin).
  - vm_compute. repeat split.
Qed.

(** C7.  After a run of the storage hook whose [try] block reaches its
    end, the one call made on the continuation is [next(OK)] when
    [queue.isSingleHandler] is set and [next()] when it is not. *)
Theorem C7_archival_success_call rt cfg ms w w' :
  GcpStoragePlugin.save_email_in_bucket_try rt cfg ms w = (inr tt, w') →
  next_calls
    (snd (GcpStoragePlugin.save_email_in_bucket rt cfg
            (Some {| transaction := Some {| message_stream := Some ms |} |}) w)) =
  (next_calls w ++ [if GcpStoragePlugin.isSingleHandler cfg then accept else proceed])%list.
Proof.
  intros Hrun.
  pose proof (save_email_in_bucket_calls_next rt cfg
                (Some {| transaction := Some {| message_stream := Some ms |} |}) w)
    as Hcalls.
  unfold storage_call in Hcalls. rewrite Hrun in Hcalls. exact (proj2 Hcalls).
Qed.

(** C10.  When the capture is rejected or never settles, the parser
    rejects the buffer, the body upload is rejected or the metadata
    attach is rejected, the hook leaves
    [transaction.notes.storageReference] as it found it (so a note that
    was absent stays absent).  Unless the message stream itself failed
    it then asks for a retry; when it did, no call is made. *)
Theorem C10_archival_failure_leaves_notes rt cfg ms w e :
  finish ms = StreamErrors e ∨
  simpleParser rt (FromBuffer (concat (chunks ms))) parser_options = inl e ∨
  faults rt (service_calls w) = Some e ∨
  faults rt (S (service_calls w)) = Some e ∨
  finish ms = SourceErrors e →
  let w' := snd (GcpStoragePlugin.save_email_in_bucket rt cfg
                   (Some {| transaction := Some {| message_stream := Some ms |} |}) w) in
  notes_storageReference w' = notes_storageReference w ∧
  (notes_storageReference w = None → notes_storageReference w' = None) ∧
  ((∀ e', finish ms ≠ SourceErrors e') →
   next_calls w' = (next_calls w ++ [soft_reject])%list) ∧
  ((∃ e', finish ms = SourceErrors e') → next_calls w' = next_calls w).
Proof.
  intros Hfail w'. subst w'.
  rewrite save_email_in_bucket_with_stream. unfold try_catch.
  destruct (GcpStoragePlugin.save_email_in_bucket_try rt cfg ms w)
    as [[[e'|]|[]] w'] eqn:Hrun.
  - pose proof Hrun as Hthrown.
    apply save_email_in_bucket_try_throws in Hrun as (Hn & Hc & _).
    rewrite save_email_in_bucket_catch_run. cbn. rewrite Hn, Hc.
    split; [done|]. split; [done|]. split; [done|].
    intros [e0 Hfin].
    rewrite (proj1 (save_email_in_bucket_try_pending rt cfg ms w) e0 Hfin) in Hthrown.
    discriminate.
  - destruct (proj2 (save_email_in_bucket_try_pending rt cfg ms w) w' Hrun) as [e0 Hfin].
    rewrite (proj1 (save_email_in_bucket_try_pending rt cfg ms w) e0 Hfin) in Hrun.
    injection Hrun as <-. cbn.
    split; [done|]. split; [done|]. split; [|done].
    intros Hno. by destruct (Hno e0).
  - apply save_email_in_bucket_try_returns in Hrun
      as (email & id & w1 & meta & Hfin & Hparse & _ & Hf1 & Hf2 & _).
    destruct Hfail as [H|[H|[H|[H|H]]]]; congruence.
Qed.


(* --------------------------------------------------------------------- *)
(* Which identifier keys the metadata document                            *)
(* --------------------------------------------------------------------- *)

Section Identifier.
Variable rt : Runtime.
Variable cfg : FirestorePlugin.Cfg.

Lemma resolve_messageId_reference r email w :
  resolve_messageId rt (Some r) email w = (inr (StorageReference.messageId r), w).
Proof. reflexivity. Qed.

(** With a reference in the notes no entropy is drawn. *)
Lemma persist_email_details_try_entropy tx w r :
  notes_storageReference w = Some r →
  entropy_used (snd (FirestorePlugin.persist_email_details_try rt cfg tx w)) =
  entropy_used w.
Proof.
  intros Hnotes.
  rewrite persist_email_details_try_eq.
  unfold FirestorePlugin.parseEmail, run_simpleParser, get_storageReference.
  eff_unfold. rewrite Hnotes.
  destruct (simpleParser rt _ _) as [e|email]; [reflexivity|].
  rewrite resolve_messageId_reference.
  destruct (constructMessageDetails_returns rt email (StorageReference.messageId r)
              (Some r) w) as (details & w2 & -> & _ & He & _).
  unfold firestore_query_get, firestore_doc_set, service_call, loginfo, next,
    FirestorePlugin.first_doc_ref.
  eff_unfold. cbn.
  destruct (faults rt (service_calls w2)); cbn; [exact He|].
  destruct (filter _ _) as [|ref rest]; cbn; [exact He|].
  destruct (faults rt (S (service_calls w2))); cbn; exact He.
Qed.

Lemma resolve_messageId_carried ref email id w id' w1 :
  carried_identifier ref email = Some id →
  resolve_messageId rt ref email w = (inr id', w1) →
  id' = id.
Proof.
  destruct ref as [r|]; cbn.
  - intros [= <-] [= <- _]. reflexivity.
  - destruct (Js.truthy (ParsedEmail.messageId email)) eqn:Ht; [|discriminate].
    intros [= <-]. rewrite (firestore_generateMessageId_embedded rt email w Ht).
    intros [= <- _]. reflexivity.
Qed.

(** The effect of one run of the hook on the document store. *)
Lemma persist_email_details_documents tx w :
  let w' := snd (FirestorePlugin.persist_email_details rt cfg
                   (Some {| transaction := Some tx |}) w) in
  recipient_collections w' = recipient_collections w ∧
  notes_storageReference w' = notes_storageReference w ∧
  ((firestore_call rt cfg (Some {| transaction := Some tx |}) w = soft_reject ∧
    metadata_documents w' = metadata_documents w) ∨
   (firestore_call rt cfg (Some {| transaction := Some tx |}) w = accept ∧
    ∃ email id w1 details ref,
      simpleParser rt (parser_input tx) parser_options = inr email ∧
      resolve_messageId rt (notes_storageReference w) email w = (inr id, w1) ∧
      head (matching_recipients cfg w (to_text email)) = Some ref ∧
      MessageDetails.messageId details = id ∧
      metadata_documents w' =
        <[document_path cfg ref id := details]> (metadata_documents w))).
Proof.
  intros w'. subst w'.
  rewrite persist_email_details_with_transaction. unfold firestore_call, try_catch.
  destruct (FirestorePlugin.persist_email_details_try rt cfg tx w)
    as [[[e|]|[]] w'] eqn:Hrun;
    [|by apply persist_email_details_try_settles in Hrun|].
  - apply persist_email_details_try_throws in Hrun as (Hm & _ & _ & Hn & Hr).
    rewrite persist_email_details_catch_run. cbn. auto.
  - apply persist_email_details_try_returns in Hrun
      as (email & id & w1 & details & ref & Hparse & Hid & Hmid & _ & _ & _ & Hhead
          & Hm & _ & Hn & Hr & _).
    cbn. split; [done|]. split; [done|]. right. split; [done|].
    exists email, id, w1, details, ref. done.
Qed.

End Identifier.

(** C1.  When the notes carry a storage reference, a run of the firestore
    hook either writes nothing and asks for a retry, or sets exactly one
    document, keyed by the reference's [messageId] and carrying that same
    [messageId]; in both cases no entropy is drawn, so an identifier is
    generated only in runs that found no reference. *)
Theorem C1_identifier_reuse rt cfg tx w r :
  notes_storageReference w = Some r →
  let connection := Some {| transaction := Some tx |} in
  let w' := snd (FirestorePlugin.persist_email_details rt cfg connection w) in
  ((next_calls w' = (next_calls w ++ [soft_reject])%list ∧
    metadata_documents w' = metadata_documents w) ∨
   (next_calls w' = (next_calls w ++ [accept])%list ∧
    ∃ ref details,
      MessageDetails.messageId details = StorageReference.messageId r ∧
      metadata_documents w' =
        <[(FirestorePlugin.merchantsPaymentNotificationsCollection cfg, doc_id ref,
           FirestorePlugin.merchantNotificationCollection cfg,
           StorageReference.messageId r) := details]> (metadata_documents w))) ∧
  entropy_used w' = entropy_used w.
Proof.
  intros Hnotes connection w'. split.
  - destruct (persist_email_details_calls_next rt cfg connection w) as [_ Hcalls].
    destruct (persist_email_details_documents rt cfg tx w)
      as (_ & _ & [[Hcall Hm]|[Hcall Hdoc]]); fold connection in Hcall.
    + left. subst w'. rewrite Hcalls, Hcall. done.
    + right. subst w'. rewrite Hcalls, Hcall. split; [done|].
      destruct Hdoc as (email & id & w1 & details & ref & _ & Hid & _ & Hmid & Hm).
      rewrite Hnotes, resolve_messageId_reference in Hid. injection Hid as <- _.
      exists ref, details. done.
  - subst w' connection. rewrite persist_email_details_with_transaction.
    unfold try_catch.
    pose proof (persist_email_details_try_entropy rt cfg tx w r Hnotes) as He.
    destruct (FirestorePlugin.persist_email_details_try rt cfg tx w) as [[[e|]|[]] w1];
      cbn in *; exact He.
Qed.

(** C5.  When the parsed message's "to" text matches no document of the
    recipient collection, the firestore hook writes no metadata document,
    logs the failure and makes its one call on the continuation the soft
    rejection "Persistence error"; it never reports success. *)
Theorem C5_no_recipient_is_reported rt cfg tx w email :
  simpleParser rt (parser_input tx) parser_options = inr email →
  matching_recipients cfg w (to_text email) = [] →
  let w' := snd (FirestorePlugin.persist_email_details rt cfg
                   (Some {| transaction := Some tx |}) w) in
  next_calls w' = (next_calls w ++ [soft_reject])%list ∧
  metadata_documents w' = metadata_documents w ∧
  ∃ e, log w' =
       (log w ++ [(LOGERROR,
                   "Failed to persist email details in Firestore: " ++ Js.message e)%string])%list.
Proof.
  intros Hparse Hnone w'. subst w'.
  destruct (persist_email_details_try_no_recipient rt cfg tx w email Hparse Hnone)
    as (e & w1 & Hrun).
  rewrite persist_email_details_with_transaction. unfold try_catch. rewrite Hrun.
  apply persist_email_details_try_throws in Hrun as (Hm & Hc & Hl & _).
  rewrite persist_email_details_catch_run. cbn. rewrite Hm, Hc, Hl.
  split; [done|]. split; [done|]. by exists e.
Qed.

(* --------------------------------------------------------------------- *)
(* Running the firestore hook twice                                       *)
(* --------------------------------------------------------------------- *)

Lemma matching_recipients_same cfg w w' address :
  recipient_collections w' = recipient_collections w →
  matching_recipients cfg w' address = matching_recipients cfg w address.
Proof. unfold matching_recipients. by intros ->. Qed.

(** One run, for a message that carries its identifier: the documents
    are left alone, or the record the run built is set at the message's
    path. *)
Lemma persist_email_details_carried rt cfg tx w email id :
  simpleParser rt (parser_input tx) parser_options = inr email →
  carried_identifier (notes_storageReference w) email = Some id →
  let connection := Some {| transaction := Some tx |} in
  let w' := snd (FirestorePlugin.persist_email_details rt cfg connection w) in
  recipient_collections w' = recipient_collections w ∧
  notes_storageReference w' = notes_storageReference w ∧
  ((firestore_call rt cfg connection w = soft_reject ∧
    metadata_documents w' = metadata_documents w) ∨
   (firestore_call rt cfg connection w = accept ∧
    ∃ ref details,
      head (matching_recipients cfg w (to_text email)) = Some ref ∧
      fst (FirestorePlugin.constructMessageDetails rt email id
             (notes_storageReference w) w) = inr details ∧
      metadata_documents w' =
        <[document_path cfg ref id := details]> (metadata_documents w))).
Proof.
  intros Hparse Hid connection w'.
  destruct (persist_email_details_documents rt cfg tx w) as (Hr & Hn & _).
  split; [exact Hr|]. split; [exact Hn|].
  destruct (persist_email_details_try_run rt cfg tx w email id w Hparse
              (resolve_messageId_carried_run rt _ _ _ w Hid) (only_counters_refl w))
    as (details & w2 & Hd & F & _ & _ & Htry).
  destruct F as (_ & _ & Hm & _).
  subst w' connection. rewrite persist_email_details_with_transaction.
  unfold firestore_call, try_catch. rewrite Htry.
  destruct (faults rt (service_calls w)); [left; by split|].
  destruct (matching_recipients cfg w (to_text email)) as [|ref rest]; [left; by split|].
  destruct (faults rt (S (service_calls w))); [left; by split|].
  right. split; [reflexivity|]. exists ref, details.
  split; [reflexivity|]. split; [by rewrite Hd|].
  unfold firestore_tail, loginfo, next. eff_unfold. world_simpl. by rewrite Hm.
Qed.

(** C9.  For a message that carries its identifier (a storage reference
    in the notes, or an embedded Message-ID), two consecutive runs of the
    firestore hook add at most one document path to the store; and when
    both runs report success, both wrote the same path, the first run
    put there the record [d1] it built, the second run replaced it with
    the record [d2] it built in its turn, so that the path holds [d2]
    and nothing of [d1], and the store holds as many documents after the
    second run as after the first. *)
Theorem C9_metadata_write_idempotent rt cfg tx w0 email id :
  simpleParser rt (parser_input tx) parser_options = inr email →
  carried_identifier (notes_storageReference w0) email = Some id →
  let connection := Some {| transaction := Some tx |} in
  let w1 := snd (FirestorePlugin.persist_email_details rt cfg connection w0) in
  let w2 := snd (FirestorePlugin.persist_email_details rt cfg connection w1) in
  (∃ path, dom (metadata_documents w2) ⊆ {[path]} ∪ dom (metadata_documents w0)) ∧
  (next_calls w2 = (next_calls w0 ++ [accept; accept])%list →
   ∃ ref d1 d2,
     head (matching_recipients cfg w0 (to_text email)) = Some ref ∧
     fst (FirestorePlugin.constructMessageDetails rt email id
            (notes_storageReference w0) w0) = inr d1 ∧
     fst (FirestorePlugin.constructMessageDetails rt email id
            (notes_storageReference w1) w1) = inr d2 ∧
     metadata_documents w1 = <[document_path cfg ref id := d1]> (metadata_documents w0) ∧
     metadata_documents w2 = <[document_path cfg ref id := d2]> (metadata_documents w1) ∧
     metadata_documents w2 = <[document_path cfg ref id := d2]> (metadata_documents w0) ∧
     metadata_documents w2 !! document_path cfg ref id = Some d2 ∧
     dom (metadata_documents w2) = dom (metadata_documents w1) ∧
     size (metadata_documents w2) = size (metadata_documents w1) ∧
     (metadata_documents w0 !! document_path cfg ref id = None →
      size (metadata_documents w2) = S (size (metadata_documents w0)))).
Proof.
  intros Hparse Hid connection w1 w2. subst connection.
  destruct (persist_email_details_carried rt cfg tx w0 email id Hparse Hid)
    as (Hr1 & Hn1 & Hrun1).
  fold w1 in Hr1, Hn1, Hrun1.
  assert (Hid1 : carried_identifier (notes_storageReference w1) email = Some id)
    by (by rewrite Hn1).
  destruct (persist_email_details_carried rt cfg tx w1 email id Hparse Hid1)
    as (Hr2 & Hn2 & Hrun2).
  fold w2 in Hr2, Hn2, Hrun2.
  rewrite (matching_recipients_same cfg w0 w1 _ Hr1) in Hrun2.
  destruct (persist_email_details_calls_next rt cfg
              (Some {| transaction := Some tx |}) w0) as [_ Hc1].
  destruct (persist_email_details_calls_next rt cfg
              (Some {| transaction := Some tx |}) w1) as [_ Hc2].
  fold w1 in Hc1, Hc2. fold w2 in Hc2.
  split.
  - destruct Hrun1 as [[_ Hm1]|[_ (ref1 & d1 & Hh1 & _ & Hm1)]];
      destruct Hrun2 as [[_ Hm2]|[_ (ref2 & d2 & Hh2 & _ & Hm2)]];
      rewrite Hm2, Hm1.
    + exists (document_path cfg {| doc_id := ""; notifications_email := "" |} id).
      set_solver.
    + exists (document_path cfg ref2 id). rewrite dom_insert_L. done.
    + exists (document_path cfg ref1 id). rewrite dom_insert_L. done.
    + rewrite Hh1 in Hh2. injection Hh2 as <-.
      exists (document_path cfg ref1 id). rewrite !dom_insert_L.
      intros p. rewrite !elem_of_union, !elem_of_singleton. tauto.
  - intros Hcalls. rewrite Hc2, Hc1, <- app_assoc in Hcalls.
    apply app_inv_head in Hcalls. cbn [app] in Hcalls.
    assert (Hcall1 : firestore_call rt cfg (Some {| transaction := Some tx |}) w0 = accept)
      by congruence.
    assert (Hcall2 : firestore_call rt cfg (Some {| transaction := Some tx |}) w1 = accept)
      by congruence.
    destruct Hrun1 as [[Hs _]|[_ (ref1 & d1 & Hh1 & Hd1 & Hm1)]];
      [rewrite Hcall1 in Hs; discriminate Hs|].
    destruct Hrun2 as [[Hs _]|[_ (ref2 & d2 & Hh2 & Hd2 & Hm2)]];
      [rewrite Hcall2 in Hs; discriminate Hs|].
    rewrite Hh1 in Hh2. injection Hh2 as <-.
    pose proof Hm2 as Hover.
    rewrite Hm1, insert_insert_eq in Hm2.
    exists ref1, d1, d2. split; [done|]. split; [exact Hd1|]. split; [exact Hd2|].
    split; [done|]. split; [exact Hover|]. split; [done|].
    split; [rewrite Hm2; apply lookup_insert_eq|].
    assert (Hdom : dom (metadata_documents w2) = dom (metadata_documents w1))
      by (rewrite Hm2, Hm1, !dom_insert_L; done).
    split; [exact Hdom|].
    split; [by rewrite <- !size_dom, Hdom|].
    intros Hfresh. rewrite Hm2. by apply map_size_insert_None.
Qed.

(* --------------------------------------------------------------------- *)
(* Identifiers: embedded and generated                                    *)
(* --------------------------------------------------------------------- *)

Lemma append_empty_r (s : string) : s ++ "" = s.
Proof.
  induction s as [|c s IH]; [reflexivity|].
  change (String c (s ++ "") = String c s). by rewrite IH.
Qed.

Lemma replace_angle_g_append (a b : string) :
  Js.replace_angle_g (a ++ b) = Js.replace_angle_g a ++ Js.replace_angle_g b.
Proof.
  induction a as [|c a IH]; [reflexivity|].
  change (String c a ++ b) with (String c (a ++ b)). cbn [Js.replace_angle_g].
  destruct (Js.is_angle c); [exact IH|].
  change (String c (Js.replace_angle_g a) ++ Js.replace_angle_g b)
    with (String c (Js.replace_angle_g a ++ Js.replace_angle_g b)).
  by rewrite IH.
Qed.

Lemma replace_angle_g_clean (s : string) :
  Js.all_chars (λ c, negb (Js.is_angle c)) s = true → Js.replace_angle_g s = s.
Proof.
  induction s as [|c s IH]; cbn; [reflexivity|].
  destruct (Js.is_angle c); cbn; [discriminate|]. intros H. by rewrite IH.
Qed.

(** What the replacement keeps: the characters other than "<" and ">",
    in their order. *)
Lemma replace_angle_g_filter (s : string) :
  list_ascii_of_string (Js.replace_angle_g s) =
  List.filter (λ c, negb (Js.is_angle c)) (list_ascii_of_string s).
Proof.
  induction s as [|c s IH]; cbn; [reflexivity|].
  destruct (Js.is_angle c); cbn; by rewrite IH.
Qed.

Lemma toString_hex_length (buf : list byte) :
  String.length (Js.toString_hex buf) = 2 * length buf.
Proof. induction buf as [|b buf IH]; cbn; [reflexivity|]. rewrite IH. lia. Qed.

Lemma toString_hex_digits (buf : list byte) :
  Js.all_chars Js.is_hex_digit (Js.toString_hex buf) = true.
Proof.
  induction buf as [|b buf IH]; [reflexivity|].
  cbn [Js.toString_hex Js.all_chars]. rewrite IH.
  destruct b; reflexivity.
Qed.

(** The storage plugin's generated identifier: 32 hexadecimal digits
    rendering 16 bytes, a "-", the clock reading in decimal. *)
Lemma storage_generated_identifier rt email w :
  Js.truthy (ParsedEmail.messageId email) = false →
  ∃ buf now,
    length buf = 16 ∧
    buf = entropy rt <$> seq (entropy_used w) 16 ∧
    now = clock rt (clock_reads w) ∧
    String.length (Js.toString_hex buf) = 32 ∧
    Js.all_chars Js.is_hex_digit (Js.toString_hex buf) = true ∧
    fst (GcpStoragePlugin.generateMessageId rt email w) =
      inr (Js.toString_hex buf ++ "-" ++ Js.number_toString now).
Proof.
  intros Hfalsy. eexists _, _. split; [|split; [reflexivity|split; [reflexivity|]]].
  - by rewrite length_fmap, length_seq.
  - rewrite toString_hex_length, length_fmap, length_seq, toString_hex_digits.
    rewrite storage_generateMessageId_generated by done. done.
Qed.

(** The firestore plugin's fallback succeeds only where [crypto] is
    Node's module; there it is the 32 hexadecimal digits alone. *)
Lemma firestore_generated_identifier rt email w :
  Js.truthy (ParsedEmail.messageId email) = false →
  match global_crypto rt with
  | CryptoNode =>
      ∃ buf, length buf = 16 ∧
             String.length (Js.toString_hex buf) = 32 ∧
             Js.all_chars Js.is_hex_digit (Js.toString_hex buf) = true ∧
             fst (FirestorePlugin.generateMessageId rt email w) = inr (Js.toString_hex buf)
  | CryptoUnbound =>
      FirestorePlugin.generateMessageId rt email w =
      (inl (Thrown (Js.ReferenceError "crypto is not defined")), w)
  | CryptoWeb =>
      FirestorePlugin.generateMessageId rt email w =
      (inl (Thrown (Js.TypeError "crypto.randomBytes is not a function")), w)
  end.
Proof.
  intros Hfalsy. unfold FirestorePlugin.generateMessageId, FirestorePlugin.crypto.
  rewrite Hfalsy. destruct (global_crypto rt); try reflexivity.
  exists (entropy rt <$> seq (entropy_used w) 16).
  rewrite toString_hex_length, length_fmap, length_seq, toString_hex_digits. done.
Qed.

(** A run of the firestore hook that has to generate an identifier where
    [crypto] is not Node's module ends in the [catch] block. *)
Lemma persist_email_details_cannot_generate rt cfg tx w email :
  global_crypto rt ≠ CryptoNode →
  notes_storageReference w = None →
  simpleParser rt (parser_input tx) parser_options = inr email →
  Js.truthy (ParsedEmail.messageId email) = false →
  let w' := snd (FirestorePlugin.persist_email_details rt cfg
                   (Some {| transaction := Some tx |}) w) in
  next_calls w' = (next_calls w ++ [soft_reject])%list ∧
  metadata_documents w' = metadata_documents w.
Proof.
  intros Hcrypto Hnotes Hparse Hfalsy w'. subst w'.
  destruct (persist_email_details_calls_next rt cfg (Some {| transaction := Some tx |}) w)
    as [_ Hcalls].
  destruct (persist_email_details_documents rt cfg tx w) as (_ & _ & [[Hcall Hm]|[_ Hdoc]]).
  - rewrite Hcalls, Hcall. done.
  - destruct Hdoc as (email' & id & w1 & details & ref & Hparse' & Hid & _).
    rewrite Hparse in Hparse'. injection Hparse' as <-.
    rewrite Hnotes in Hid. cbn in Hid.
    pose proof (firestore_generated_identifier rt email w Hfalsy) as Hgen.
    destruct (global_crypto rt); [congruence|congruence|done].
Qed.

Example strip_enclosing_angle_spec_abc : strip_enclosing_angle_spec "<abc@x>" = "abc@x".
Proof. reflexivity. Qed.

(** C2, as amended.  For an email whose [messageId] is a non-empty
    string, both plugins' [generateMessageId] return that string with
    every "<" and every ">" removed, wherever they stand, and change
    nothing: no entropy is drawn and the clock is not read, so the result
    depends on the embedded identifier alone.  When the only angle
    brackets are one enclosing pair, the result is what they enclose. *)
Theorem C2_embedded_identifier rt email id w :
  ParsedEmail.messageId email = Some id →
  id ≠ "" →
  FirestorePlugin.generateMessageId rt email w = (inr (Js.replace_angle_g id), w) ∧
  GcpStoragePlugin.generateMessageId rt email w = (inr (Js.replace_angle_g id), w) ∧
  list_ascii_of_string (Js.replace_angle_g id) =
    List.filter (λ c, negb (Js.is_angle c)) (list_ascii_of_string id) ∧
  (∀ inner, id = "<" ++ inner ++ ">" →
            Js.all_chars (λ c, negb (Js.is_angle c)) inner = true →
            Js.replace_angle_g id = inner).
Proof.
  intros Hid Hne.
  assert (Ht : Js.truthy (ParsedEmail.messageId email) = true).
  { rewrite Hid. by destruct id. }
  rewrite firestore_generateMessageId_embedded, storage_generateMessageId_embedded by done.
  rewrite Hid. cbn [default]. repeat split.
  - apply replace_angle_g_filter.
  - intros inner -> Hclean.
    change ("<" ++ inner ++ ">") with (String "<" (inner ++ ">")).
    cbn [Js.replace_angle_g]. change (Js.is_angle "<") with true. cbn iota.
    rewrite replace_angle_g_append, (replace_angle_g_clean inner Hclean).
    apply append_empty_r.
Qed.

(* --------------------------------------------------------------------- *)
(* Runs of the sample deployment                                         *)
(* --------------------------------------------------------------------- *)

Example sample_archival_run :
  let w := snd (GcpStoragePlugin.save_email_in_bucket (Sample.haraka (Sample.hello None))
                  Sample.storage_cfg Sample.connection (Sample.world [Sample.merchant] None)) in
  notes_storageReference w =
    Some {| StorageReference.bucketName := "mail-archive";
            StorageReference.objectName :=
              "emails/00ab1010101010101010101010101010-1730000000000.eml";
            StorageReference.messageId := "00ab1010101010101010101010101010-1730000000000";
            StorageReference.storageUrl :=
              "gs://mail-archive/emails/00ab1010101010101010101010101010-1730000000000.eml" |} ∧
  next_calls w = [proceed].
Proof. vm_compute. split; reflexivity. Qed.

(** C2, as the claim states it, fails: on the identifier "<a<b>c@x>"
    both plugins return "abc@x", while stripping the enclosing brackets
    only leaves "a<b>c@x". *)
Lemma C2_counterexample :
  fst (FirestorePlugin.generateMessageId (Sample.haraka (Sample.hello (Some "<a<b>c@x>")))
         (Sample.hello (Some "<a<b>c@x>")) (Sample.world [] None)) = inr "abc@x" ∧
  fst (GcpStoragePlugin.generateMessageId (Sample.haraka (Sample.hello (Some "<a<b>c@x>")))
         (Sample.hello (Some "<a<b>c@x>")) (Sample.world [] None)) = inr "abc@x" ∧
  strip_enclosing_angle_spec "<a<b>c@x>" = "a<b>c@x" ∧
  "abc@x" ≠ strip_enclosing_angle_spec "<a<b>c@x>".
Proof. repeat split; try reflexivity. discriminate. Qed.

Lemma C2_witness :
  ParsedEmail.messageId (Sample.hello (Some "<abc@x>")) = Some "<abc@x>" ∧
  "<abc@x>" ≠ "" ∧
  FirestorePlugin.generateMessageId (Sample.haraka (Sample.hello (Some "<abc@x>")))
    (Sample.hello (Some "<abc@x>")) (Sample.world [] None) =
  (inr "abc@x", Sample.world [] None).
Proof.
  split; [reflexivity|]. split; [discriminate|].
  exact (proj1 (C2_embedded_identifier (Sample.haraka (Sample.hello (Some "<abc@x>")))
                  (Sample.hello (Some "<abc@x>")) "<abc@x>" (Sample.world [] None)
                  eq_refl ltac:(discriminate))).
Defined.

(** C3 at a message without a Message-ID.  The storage plugin returns 16
    bytes in hexadecimal, "-" and the clock reading.  The firestore
    plugin, run without a storage reference, never gets its 32
    hexadecimal digits: its file does not require [crypto], so the name
    is unbound where Haraka compiles the plugin (and is the Web Crypto
    object, which has no [randomBytes], in a plain Node module); the call
    throws and the hook asks for a retry without writing. *)
Theorem C3_generated_identifier_sample :
  fst (GcpStoragePlugin.generateMessageId (Sample.haraka (Sample.hello None))
         (Sample.hello None) (Sample.world [Sample.merchant] None)) =
    inr "00ab1010101010101010101010101010-1730000000000" ∧
  FirestorePlugin.generateMessageId (Sample.haraka (Sample.hello None))
    (Sample.hello None) (Sample.world [Sample.merchant] None) =
    (inl (Thrown (Js.ReferenceError "crypto is not defined")), Sample.world [Sample.merchant] None) ∧
  FirestorePlugin.generateMessageId (Sample.runtime CryptoWeb (Sample.hello None))
    (Sample.hello None) (Sample.world [Sample.merchant] None) =
    (inl (Thrown (Js.TypeError "crypto.randomBytes is not a function")),
     Sample.world [Sample.merchant] None) ∧
  next_calls
    (snd (FirestorePlugin.persist_email_details (Sample.haraka (Sample.hello None))
            Sample.firestore_cfg Sample.connection (Sample.world [Sample.merchant] None))) =
    [soft_reject].
Proof. repeat split; reflexivity. Qed.

(** C8 at the scenario: no Message-ID, no storage reference, subject
    "Hello", from x@y.com, to a@example.com, body "hi", no attachment.
    Given an identifier, [constructMessageDetails] builds the expected
    record, with the storage properties exactly when a reference is
    passed; but the hook never gets there, because generating the
    identifier throws: it asks for a retry and no document is written. *)
Theorem C8_scenario_record :
  (∀ id ref w,
     ∃ details w',
       FirestorePlugin.constructMessageDetails (Sample.haraka (Sample.hello None))
         (Sample.hello None) id ref w = (inr details, w') ∧
       MessageDetails.messageId details = id ∧
       MessageDetails.subject details = "Hello" ∧
       MessageDetails.from details = "x@y.com" ∧
       MessageDetails.to details = "a@example.com" ∧
       MessageDetails.plainTextLength details = 2 ∧
       MessageDetails.attachmentsCount details = 0 ∧
       (is_Some (MessageDetails.bucketName details) ↔ is_Some ref) ∧
       (is_Some (MessageDetails.objectName details) ↔ is_Some ref) ∧
       (is_Some (MessageDetails.storageUrl details) ↔ is_Some ref)) ∧
  (let w := snd (FirestorePlugin.persist_email_details (Sample.haraka (Sample.hello None))
                   Sample.firestore_cfg Sample.connection
                   (Sample.world [Sample.merchant] None)) in
   next_calls w = [soft_reject] ∧
   metadata_documents w = ∅ ∧
   log w = [(LOGERROR,
             "Failed to persist email details in Firestore: crypto is not defined")]).
Proof.
  split.
  - intros id ref w. eexists _, _. split; [reflexivity|]. cbn.
    repeat split; try reflexivity; rewrite ?fmap_is_Some; done.
  - vm_compute. repeat split; reflexivity.
Qed.

(* --------------------------------------------------------------------- *)
(* The theorems at the sample deployment                                  *)
(* --------------------------------------------------------------------- *)

Lemma C1_witness :
  notes_storageReference (Sample.world [Sample.merchant] (Some Sample.reference)) =
    Some Sample.reference ∧
  entropy_used
    (snd (FirestorePlugin.persist_email_details (Sample.haraka (Sample.hello None))
            Sample.firestore_cfg Sample.connection
            (Sample.world [Sample.merchant] (Some Sample.reference)))) = 0 ∧
  metadata_documents
    (snd (FirestorePlugin.persist_email_details (Sample.haraka (Sample.hello None))
            Sample.firestore_cfg Sample.connection
            (Sample.world [Sample.merchant] (Some Sample.reference))))
    !! ("merchants", "m1", "notifications", "abc@x") ≠ None.
Proof.
  split; [reflexivity|]. split.
  - exact (proj2 (C1_identifier_reuse (Sample.haraka (Sample.hello None))
                    Sample.firestore_cfg Sample.tx
                    (Sample.world [Sample.merchant] (Some Sample.reference))
                    Sample.reference eq_refl)).
  - vm_compute. discriminate.
Defined.

Lemma C5_witness :
  simpleParser (Sample.haraka (Sample.hello (Some "<abc@x>")))
    (parser_input Sample.tx) parser_options = inr (Sample.hello (Some "<abc@x>")) ∧
  matching_recipients Sample.firestore_cfg (Sample.world [] None)
    (to_text (Sample.hello (Some "<abc@x>"))) = [] ∧
  next_calls
    (snd (FirestorePlugin.persist_email_details (Sample.haraka (Sample.hello (Some "<abc@x>")))
            Sample.firestore_cfg Sample.connection (Sample.world [] None))) =
    [soft_reject].
Proof.
  split; [reflexivity|]. split; [reflexivity|].
  exact (proj1 (C5_no_recipient_is_reported (Sample.haraka (Sample.hello (Some "<abc@x>")))
                  Sample.firestore_cfg Sample.tx (Sample.world [] None)
                  (Sample.hello (Some "<abc@x>")) eq_refl eq_refl)).
Defined.


Lemma C7_witness :
  fst (GcpStoragePlugin.save_email_in_bucket_try (Sample.haraka (Sample.hello None))
         Sample.storage_cfg Sample.stream (Sample.world [Sample.merchant] None)) = inr tt ∧
  next_calls
    (snd (GcpStoragePlugin.save_email_in_bucket (Sample.haraka (Sample.hello None))
            Sample.storage_cfg Sample.connection (Sample.world [Sample.merchant] None))) =
    [proceed].
Proof.
  split; [reflexivity|].
  exact (C7_archival_success_call (Sample.haraka (Sample.hello None)) Sample.storage_cfg
           Sample.stream (Sample.world [Sample.merchant] None) _ eq_refl).
Defined.

Lemma C9_witness :
  let rt := Sample.haraka (Sample.hello (Some "<abc@x>")) in
  let w0 := Sample.world [Sample.merchant] None in
  let w1 := snd (FirestorePlugin.persist_email_details rt Sample.firestore_cfg
                   Sample.connection w0) in
  let w2 := snd (FirestorePlugin.persist_email_details rt Sample.firestore_cfg
                   Sample.connection w1) in
  simpleParser rt (parser_input Sample.tx) parser_options =
    inr (Sample.hello (Some "<abc@x>")) ∧
  carried_identifier (notes_storageReference w0) (Sample.hello (Some "<abc@x>")) =
    Some "abc@x" ∧
  next_calls w2 = [accept; accept] ∧
  ∃ ref d1 d2,
    fst (FirestorePlugin.constructMessageDetails rt (Sample.hello (Some "<abc@x>"))
           "abc@x" (notes_storageReference w0) w0) = inr d1 ∧
    fst (FirestorePlugin.constructMessageDetails rt (Sample.hello (Some "<abc@x>"))
           "abc@x" (notes_storageReference w1) w1) = inr d2 ∧
    metadata_documents w1 = <[document_path Sample.firestore_cfg ref "abc@x" := d1]> ∅ ∧
    metadata_documents w2 = <[document_path Sample.firestore_cfg ref "abc@x" := d2]> ∅ ∧
    metadata_documents w2 !! document_path Sample.firestore_cfg ref "abc@x" = Some d2.
Proof.
  split; [reflexivity|]. split; [reflexivity|]. split; [reflexivity|].
  destruct (proj2 (C9_metadata_write_idempotent
                     (Sample.haraka (Sample.hello (Some "<abc@x>")))
                     Sample.firestore_cfg Sample.tx (Sample.world [Sample.merchant] None)
                     (Sample.hello (Some "<abc@x>")) "abc@x" eq_refl eq_refl) eq_refl)
    as (ref & d1 & d2 & _ & Hd1 & Hd2 & H1 & _ & H2 & Hl & _).
  exists ref, d1, d2.
  split; [exact Hd1|]. split; [exact Hd2|]. split; [exact H1|]. split; [exact H2|exact Hl].
Defined.

Example sample_metadata_twice :
  let run := FirestorePlugin.persist_email_details
               (Sample.haraka (Sample.hello (Some "<abc@x>")))
               Sample.firestore_cfg Sample.connection in
  let w1 := snd (run (Sample.world [Sample.merchant] None)) in
  let w2 := snd (run w1) in
  next_calls w2 = [accept; accept] ∧
  size (metadata_documents w1) = 1 ∧
  size (metadata_documents w2) = 1 ∧
  (MessageDetails.receivedDate <$>
     metadata_documents w2 !! ("merchants", "m1", "notifications", "abc@x")) =
    Some (IsoString 1730000000003).
Proof. vm_compute. repeat split; reflexivity. Qed.

Lemma C10_witness :
  (faults (Sample.upload_rejected (Sample.hello None))
     (service_calls (Sample.world [Sample.merchant] None)) =
     Some (Js.ServiceError "upload rejected") ∧
   let w' := snd (GcpStoragePlugin.save_email_in_bucket
                    (Sample.upload_rejected (Sample.hello None))
                    Sample.storage_cfg Sample.connection
                    (Sample.world [Sample.merchant] None)) in
   notes_storageReference w' = None ∧ next_calls w' = [soft_reject]) ∧
  (finish Scenario.failing_stream = SourceErrors (Js.ServiceError "read failed") ∧
   let w' := snd (GcpStoragePlugin.save_email_in_bucket (Sample.haraka (Sample.hello None))
                    Sample.storage_cfg Scenario.failing_connection
                    (Sample.world [Sample.merchant] None)) in
   notes_storageReference w' = None ∧ next_calls w' = []).
Proof.
  split.
  - split; [reflexivity|].
    destruct (C10_archival_failure_leaves_notes (Sample.upload_rejected (Sample.hello None))
                Sample.storage_cfg Sample.stream (Sample.world [Sample.merchant] None)
                (Js.ServiceError "upload rejected")
                (or_intror (or_intror (or_introl eq_refl))))
      as (Hnotes & _ & Hcall & _).
    split; [exact Hnotes|]. apply Hcall. intros e' He. discriminate He.
  - split; [reflexivity|].
    destruct (C10_archival_failure_leaves_notes (Sample.haraka (Sample.hello None))
                Sample.storage_cfg Scenario.failing_stream
                (Sample.world [Sample.merchant] None)
                (Js.ServiceError "read failed")
                (or_intror (or_intror (or_intror (or_intror eq_refl)))))
      as (Hnotes & _ & _ & Hcall).
    split; [exact Hnotes|]. apply Hcall. by eexists.
Defined.

(* --------------------------------------------------------------------- *)
(* More on the storage hook                                               *)
(* --------------------------------------------------------------------- *)

(** The storage hook completes with a request for a retry exactly when
    the PassThrough emits 'error' or, the stream having ended, the
    parser rejects the captured bytes or one of the two service calls is
    rejected.  When the message stream itself fails before it ends, the
    hook never completes and makes no call.  In every other run on a
    message stream it completes with the success call. *)
Theorem save_email_in_bucket_rejects_iff rt cfg ms w :
  let connection := Some {| transaction := Some {| message_stream := Some ms |} |} in
  let r := GcpStoragePlugin.save_email_in_bucket rt cfg connection w in
  let stalled := ∃ e, finish ms = SourceErrors e in
  let failure :=
    (∃ e, finish ms = StreamErrors e) ∨
    (finish ms = StreamEnds ∧
     ((∃ e, simpleParser rt (FromBuffer (concat (chunks ms))) parser_options = inl e) ∨
      is_Some (faults rt (service_calls w)) ∨
      is_Some (faults rt (S (service_calls w))))) in
  (stalled ↔ r = (inl Pending, w)) ∧
  (failure ↔
   fst r = inr tt ∧ next_calls (snd r) = (next_calls w ++ [soft_reject])%list) ∧
  (¬ stalled ∧ ¬ failure ↔
   fst r = inr tt ∧ next_calls (snd r) = (next_calls w ++ [success_call cfg])%list).
Proof.
  intros connection r stalled failure.
  pose proof (save_email_in_bucket_calls_next rt cfg connection w) as Hcalls.
  fold r in Hcalls. unfold storage_call, connection in Hcalls.
  assert (Hrejected :
    failure → fst (GcpStoragePlugin.save_email_in_bucket_try rt cfg ms w) ≠ inl Pending →
    (∃ e, fst (GcpStoragePlugin.save_email_in_bucket_try rt cfg ms w) = inl (Thrown e))).
  { intros Hf Hnp.
    destruct (GcpStoragePlugin.save_email_in_bucket_try rt cfg ms w)
      as [[[e|]|[]] w'] eqn:Hrun; cbn [fst] in *; [by eauto|done|].
    apply save_email_in_bucket_try_returns in Hrun
      as (email & id & w1 & meta & Hfin & Hparse & _ & Hf1 & Hf2 & _).
    destruct Hf as [[e He]|[_ [[e He]|[[e He]|[e He]]]]]; congruence. }
  assert (Hthrown : ∀ e w',
    GcpStoragePlugin.save_email_in_bucket_try rt cfg ms w = (inl (Thrown e), w') → failure).
  { intros e w' Hrun. pose proof Hrun as Hrun0.
    apply save_email_in_bucket_try_throws in Hrun as (_ & _ & _ & _ & Hwhy).
    destruct (finish ms) as [|e'|e'] eqn:Hfin.
    - right. split; [done|].
      destruct Hwhy as [H|[H|[H|H]]]; [discriminate|by eauto|rewrite H; by eauto..].
    - left. by eauto.
    - rewrite (proj1 (save_email_in_bucket_try_pending rt cfg ms w) e' Hfin) in Hrun0.
      discriminate. }
  destruct (GcpStoragePlugin.save_email_in_bucket_try rt cfg ms w)
    as [[[e|]|[]] w'] eqn:Hrun; cbn [fst] in *.
  - destruct Hcalls as [Hret Hc].
    assert (Hns : ¬ stalled).
    { intros [e' Hfin].
      by rewrite (proj1 (save_email_in_bucket_try_pending rt cfg ms w) e' Hfin) in Hrun. }
    pose proof (Hthrown e w' eq_refl) as Hf.
    split; [|split].
    + split; [done|]. intros Hr. rewrite Hr in Hret. discriminate.
    + done.
    + split; [by intros [_ ?]|]. intros [_ Hc']. rewrite Hc in Hc'.
      apply app_inv_head in Hc'.
      destruct (success_call_not_soft_reject cfg). congruence.
  - destruct (proj2 (save_email_in_bucket_try_pending rt cfg ms w) w' Hrun) as [e Hfin].
    assert (Hnf : ¬ failure).
    { intros [[e' H]|[H _]]; congruence. }
    split; [|split].
    + split; [done|]. intros _. by exists e.
    + split; [done|]. intros [Hret _]. rewrite Hcalls in Hret. discriminate.
    + split; [intros [Hns _]; destruct Hns; by exists e|].
      intros [Hret _]. rewrite Hcalls in Hret. discriminate.
  - destruct Hcalls as [Hret Hc].
    assert (Hc' : next_calls (snd r) = (next_calls w ++ [success_call cfg])%list).
    { rewrite Hc. unfold success_call, accept, proceed.
      by destruct (GcpStoragePlugin.isSingleHandler cfg). }
    assert (Hns : ¬ stalled).
    { intros [e' Hfin].
      by rewrite (proj1 (save_email_in_bucket_try_pending rt cfg ms w) e' Hfin) in Hrun. }
    assert (Hnf : ¬ failure).
    { intros Hf. destruct (Hrejected Hf) as [e He]; discriminate. }
    split; [|split].
    + split; [done|]. intros Hr. rewrite Hr in Hret. discriminate.
    + split; [done|]. intros [_ Hs]. rewrite Hc' in Hs.
      apply app_inv_head in Hs.
      destruct (success_call_not_soft_reject cfg). congruence.
    + done.
Qed.

(** When the body upload resolves and the metadata attach is rejected,
    the object stays in the bucket, under the message's key, with the
    captured bytes and no metadata; the notes are left as they were, the
    rejection is logged with its message and the hook asks for a retry. *)
Theorem save_email_in_bucket_metadata_attach_rejected rt cfg ms w email e :
  finish ms = StreamEnds →
  simpleParser rt (FromBuffer (concat (chunks ms))) parser_options = inr email →
  faults rt (service_calls w) = None →
  faults rt (S (service_calls w)) = Some e →
  let w' := snd (GcpStoragePlugin.save_email_in_bucket rt cfg
                   (Some {| transaction := Some {| message_stream := Some ms |} |}) w) in
  ∃ id w1,
    GcpStoragePlugin.generateMessageId rt email w = (inr id, w1) ∧
    bucket_objects w' !! (GcpStoragePlugin.bucketName cfg, "emails/" ++ id ++ ".eml") =
      Some {| body := concat (chunks ms); attached := None |} ∧
    notes_storageReference w' = notes_storageReference w ∧
    next_calls w' = (next_calls w ++ [soft_reject])%list ∧
    log w' = (log w ++ [(LOGERROR,
                         "Failed to save email in GCP Storage: " ++ Js.message e)%string])%list.
Proof.
  intros Hfin Hparse Hf1 Hf2 w'. subst w'.
  rewrite save_email_in_bucket_with_stream. unfold try_catch.
  destruct (save_email_in_bucket_try_run rt cfg ms w email Hfin Hparse)
    as (id & w1 & meta & w2 & Hid & _ & F & _ & ->).
  rewrite Hf1, Hf2. rewrite save_email_in_bucket_catch_run.
  destruct F as (Hb & _ & _ & Hn & _ & Hl & Hc).
  exists id, w1. split; [exact Hid|]. cbn. rewrite Hb, Hn, Hl, Hc.
  split; [apply lookup_insert_eq|]. done.
Qed.

(** A run of the storage hook touches at most one object of the bucket:
    the one under the key of the identifier it resolved. *)
Theorem save_email_in_bucket_other_objects rt cfg connection w key :
  let w' := snd (GcpStoragePlugin.save_email_in_bucket rt cfg connection w) in
  bucket_objects w' !! key ≠ bucket_objects w !! key →
  ∃ ms email id w1,
    connection = Some {| transaction := Some {| message_stream := Some ms |} |} ∧
    simpleParser rt (FromBuffer (concat (chunks ms))) parser_options = inr email ∧
    GcpStoragePlugin.generateMessageId rt email w = (inr id, w1) ∧
    faults rt (service_calls w) = None ∧
    key = (GcpStoragePlugin.bucketName cfg, "emails/" ++ id ++ ".eml").
Proof.
  intros w'. subst w'.
  destruct connection as [[[[[ms|]]|]]|]; try (intros H; by destruct H).
  rewrite save_email_in_bucket_with_stream. unfold try_catch.
  destruct (finish ms) as [|e|e] eqn:Hfin.
  3:{ rewrite (proj1 (save_email_in_bucket_try_pending rt cfg ms w) e Hfin).
      intros H. by destruct H. }
  2:{ rewrite (save_email_in_bucket_try_capture_fails rt cfg ms w e Hfin).
      intros H. by destruct H. }
  destruct (simpleParser rt (FromBuffer (concat (chunks ms))) parser_options)
    as [e|email] eqn:Hparse.
  { rewrite (save_email_in_bucket_try_parse_fails rt cfg ms w e Hfin Hparse).
    intros H. by destruct H. }
  destruct (save_email_in_bucket_try_run rt cfg ms w email Hfin Hparse)
    as (id & w1 & meta & w2 & Hid & _ & F & _ & ->).
  destruct F as (Hb & _).
  destruct (faults rt (service_calls w)) as [e|] eqn:Hf1.
  { rewrite save_email_in_bucket_catch_run. cbn. rewrite Hb. intros H. by destruct H. }
  intros Hne. exists ms, email, id, w1. repeat split; try done.
  destruct (decide (key = object_key cfg id)) as [->|Hkey]; [done|].
  destruct Hne.
  destruct (faults rt (S (service_calls w))) as [e|].
  - rewrite save_email_in_bucket_catch_run. world_simpl. rewrite Hb.
    by rewrite lookup_insert_ne.
  - unfold storage_tail, put_storageReference, loginfo, next. eff_unfold.
    destruct (GcpStoragePlugin.isSingleHandler cfg); world_simpl; rewrite Hb;
      by rewrite lookup_alter_ne, lookup_insert_ne.
Qed.

(** One run of the storage hook for a message with an embedded
    identifier, seen from the bucket: what is attached on success is
    the metadata the run built. *)
Lemma save_email_in_bucket_embedded_run rt cfg ms w email :
  finish ms = StreamEnds →
  simpleParser rt (FromBuffer (concat (chunks ms))) parser_options = inr email →
  Js.truthy (ParsedEmail.messageId email) = true →
  let connection := Some {| transaction := Some {| message_stream := Some ms |} |} in
  let w' := snd (GcpStoragePlugin.save_email_in_bucket rt cfg connection w) in
  let id := Js.replace_angle_g (default "" (ParsedEmail.messageId email)) in
  let key := object_key cfg id in
  let stored := {| body := concat (chunks ms); attached := None |} in
  (storage_call rt cfg connection w = Some soft_reject ∧
   (bucket_objects w' = bucket_objects w ∨
    bucket_objects w' = <[key := stored]> (bucket_objects w))) ∨
  (storage_call rt cfg connection w = Some (success_call cfg) ∧
   ∃ meta,
     fst (GcpStoragePlugin.constructObjectMetadata rt email id w) = inr meta ∧
     bucket_objects w' =
     alter (λ o, {| body := body o; attached := Some meta |}) key
       (<[key := stored]> (bucket_objects w))).
Proof.
  intros Hfin Hparse Ht connection w' id key stored. subst w' connection.
  rewrite save_email_in_bucket_with_stream. unfold storage_call, try_catch.
  destruct (save_email_in_bucket_try_run rt cfg ms w email Hfin Hparse)
    as (id' & w1 & meta & w2 & Hid & Hmeta & F & _ & ->).
  rewrite (storage_generateMessageId_embedded rt email w Ht) in Hid.
  injection Hid as <- <-. fold id. fold key.
  destruct F as (Hb & _).
  destruct (faults rt (service_calls w)) as [e|].
  { left. rewrite save_email_in_bucket_catch_run. world_simpl. rewrite Hb. auto. }
  destruct (faults rt (S (service_calls w))) as [e|].
  { left. rewrite save_email_in_bucket_catch_run. world_simpl. rewrite Hb. auto. }
  right. rewrite storage_tail_fst.
  split; [unfold success_call, accept, proceed;
          by destruct (GcpStoragePlugin.isSingleHandler cfg)|].
  exists meta. split; [exact (f_equal fst Hmeta)|].
  unfold storage_tail, put_storageReference, loginfo, next. eff_unfold.
  destruct (GcpStoragePlugin.isSingleHandler cfg); world_simpl; by rewrite Hb.
Qed.

(** Two consecutive runs of the storage hook for a message with an
    embedded identifier write under one and the same key: together they
    add at most that key to the bucket, and when both succeed the second
    run has replaced what the first stored, the object holds the body
    the second run captured and the metadata the second run built, and
    the bucket holds as many objects as after the first run. *)
Theorem save_email_in_bucket_twice_same_key rt cfg ms w0 email :
  finish ms = StreamEnds →
  simpleParser rt (FromBuffer (concat (chunks ms))) parser_options = inr email →
  Js.truthy (ParsedEmail.messageId email) = true →
  let connection := Some {| transaction := Some {| message_stream := Some ms |} |} in
  let w1 := snd (GcpStoragePlugin.save_email_in_bucket rt cfg connection w0) in
  let w2 := snd (GcpStoragePlugin.save_email_in_bucket rt cfg connection w1) in
  let id := Js.replace_angle_g (default "" (ParsedEmail.messageId email)) in
  let key := object_key cfg id in
  dom (bucket_objects w2) ⊆ {[key]} ∪ dom (bucket_objects w0) ∧
  (next_calls w2 = (next_calls w0 ++ [success_call cfg; success_call cfg])%list →
   (∃ meta1 meta2,
      fst (GcpStoragePlugin.constructObjectMetadata rt email id w0) = inr meta1 ∧
      fst (GcpStoragePlugin.constructObjectMetadata rt email id w1) = inr meta2 ∧
      fst (GcpStoragePlugin.capture ms w1) = inr (concat (chunks ms)) ∧
      bucket_objects w1 !! key =
        Some {| body := concat (chunks ms); attached := Some meta1 |} ∧
      bucket_objects w2 !! key =
        Some {| body := concat (chunks ms); attached := Some meta2 |}) ∧
   dom (bucket_objects w2) = dom (bucket_objects w1) ∧
   size (bucket_objects w2) = size (bucket_objects w1)).
Proof.
  intros Hfin Hparse Ht connection w1 w2 id key. subst connection.
  pose proof (save_email_in_bucket_embedded_run rt cfg ms w0 email Hfin Hparse Ht) as H1.
  pose proof (save_email_in_bucket_embedded_run rt cfg ms w1 email Hfin Hparse Ht) as H2.
  cbv zeta in H1, H2. fold w1 in H1, H2. fold w2 in H2. fold id in H1, H2.
  fold key in H1, H2.
  assert (Hd1 : dom (bucket_objects w1) ⊆ {[key]} ∪ dom (bucket_objects w0)).
  { destruct H1 as [[_ [->| ->]]|[_ (meta & _ & ->)]];
      rewrite ?dom_alter_L, ?dom_insert_L; [apply union_subseteq_r|done|done]. }
  assert (Hd2 : dom (bucket_objects w2) ⊆ {[key]} ∪ dom (bucket_objects w1)).
  { destruct H2 as [[_ [->| ->]]|[_ (meta & _ & ->)]];
      rewrite ?dom_alter_L, ?dom_insert_L; [apply union_subseteq_r|done|done]. }
  split.
  { intros p Hp. apply Hd2 in Hp. apply elem_of_union in Hp as [Hp|Hp];
      [by apply elem_of_union_l|by apply Hd1]. }
  intros Hcalls.
  assert (Hcall1 : storage_call rt cfg
            (Some {| transaction := Some {| message_stream := Some ms |} |}) w0 =
          Some (success_call cfg) ∧
          storage_call rt cfg
            (Some {| transaction := Some {| message_stream := Some ms |} |}) w1 =
          Some (success_call cfg)).
  { destruct H1 as [[Hs1 _]|[Hs1 _]]; destruct H2 as [[Hs2 _]|[Hs2 _]];
      pose proof (proj2 (save_email_in_bucket_calls_next_some _ _ _ _ _ Hs1)) as Hc1;
      pose proof (proj2 (save_email_in_bucket_calls_next_some _ _ _ _ _ Hs2)) as Hc2;
      fold w1 in Hc1, Hc2; fold w2 in Hc2;
      rewrite Hc2, Hc1, <- app_assoc in Hcalls;
      apply app_inv_head in Hcalls; cbn [app] in Hcalls;
      try done;
      destruct (success_call_not_soft_reject cfg); congruence. }
  destruct Hcall1 as [Hcall1 Hcall2].
  destruct H1 as [[Hs _]|[_ (meta1 & Hm1 & Hb1)]];
    [destruct (success_call_not_soft_reject cfg); congruence|].
  destruct H2 as [[Hs _]|[_ (meta2 & Hm2 & Hb2)]];
    [destruct (success_call_not_soft_reject cfg); congruence|].
  assert (Hdom : dom (bucket_objects w2) = dom (bucket_objects w1)).
  { rewrite Hb2, Hb1. repeat (rewrite dom_alter_L || rewrite dom_insert_L).
    by rewrite (assoc_L (∪)), (idemp_L (∪)). }
  split; [|split; [exact Hdom|by rewrite <- !size_dom, Hdom]].
  exists meta1, meta2. split; [exact Hm1|]. split; [exact Hm2|].
  split; [unfold GcpStoragePlugin.capture; by rewrite Hfin|].
  split.
  - rewrite Hb1, lookup_alter_eq, lookup_insert_eq. reflexivity.
  - rewrite Hb2, lookup_alter_eq, lookup_insert_eq. reflexivity.
Qed.

(* --------------------------------------------------------------------- *)
(* More on identifiers                                                    *)
(* --------------------------------------------------------------------- *)

Lemma hex_value_digits (b : byte) :
  (16 * hex_value (Js.hex_digit (Byte.to_N b / 16)) +
   hex_value (Js.hex_digit (Byte.to_N b mod 16)) = Byte.to_N b)%N.
Proof. destruct b; reflexivity. Qed.

Lemma byte_of_digits (a b : byte) :
  Js.hex_digit (Byte.to_N a / 16) = Js.hex_digit (Byte.to_N b / 16) →
  Js.hex_digit (Byte.to_N a mod 16) = Js.hex_digit (Byte.to_N b mod 16) →
  a = b.
Proof.
  intros Hhi Hlo.
  assert (H : Byte.to_N a = Byte.to_N b)
    by (rewrite <- (hex_value_digits a), <- (hex_value_digits b), Hhi, Hlo; reflexivity).
  apply (f_equal Byte.of_N) in H. rewrite !Byte.of_to_N in H. by injection H.
Qed.

Lemma append_cons (c : ascii) (s t : string) : String c s ++ t = String c (s ++ t).
Proof. reflexivity. Qed.

(** Two renderings of as many bytes, each followed by anything, are
    equal only if the bytes and what follows are. *)
Lemma toString_hex_append_inj (b1 b2 : list byte) (s1 s2 : string) :
  length b1 = length b2 →
  Js.toString_hex b1 ++ s1 = Js.toString_hex b2 ++ s2 →
  b1 = b2 ∧ s1 = s2.
Proof.
  revert b2. induction b1 as [|a b1 IH]; intros [|b b2] Hlen; try discriminate.
  - cbn. auto.
  - cbn [Js.toString_hex]. rewrite !append_cons. intros [= Hhi Hlo Hrest].
    injection Hlen as Hlen.
    destruct (IH b2 Hlen Hrest) as [-> ->].
    by rewrite (byte_of_digits a b Hhi Hlo).
Qed.

Lemma number_toString_inj (a b : Z) :
  Js.number_toString a = Js.number_toString b → a = b.
Proof.
  unfold Js.number_toString. intros H.
  assert (Hnn : ∀ z, Z.to_int z ≠ Decimal.Pos Decimal.Nil ∧
                     Z.to_int z ≠ Decimal.Neg Decimal.Nil).
  { intros [|p|p]; cbn; split; try discriminate;
      intros [= Hp]; by apply (DecimalPos.Unsigned.to_uint_nonnil p). }
  apply (f_equal NilZero.int_of_string) in H.
  rewrite !NilZero.isi in H by apply Hnn.
  injection H as H. apply (f_equal Z.of_int) in H.
  by rewrite !DecimalZ.of_to in H.
Qed.

(** The identifier the storage plugin generates determines the 16 bytes
    drawn and the clock reading: two generated identifiers are equal
    only if both are. *)
Theorem storage_generated_identifier_inj rt1 rt2 email1 email2 w1 w2 :
  Js.truthy (ParsedEmail.messageId email1) = false →
  Js.truthy (ParsedEmail.messageId email2) = false →
  fst (GcpStoragePlugin.generateMessageId rt1 email1 w1) =
  fst (GcpStoragePlugin.generateMessageId rt2 email2 w2) →
  entropy rt1 <$> seq (entropy_used w1) 16 = entropy rt2 <$> seq (entropy_used w2) 16 ∧
  clock rt1 (clock_reads w1) = clock rt2 (clock_reads w2).
Proof.
  intros H1 H2.
  rewrite !storage_generateMessageId_generated by done. cbn [fst].
  intros Heq. apply (inj inr) in Heq.
  apply toString_hex_append_inj in Heq as [Hbytes Hrest];
    [|by rewrite !length_fmap, !length_seq].
  split; [exact Hbytes|].
  rewrite !append_cons in Hrest. injection Hrest as Hrest.
  by apply number_toString_inj.
Qed.

Lemma replace_angle_g_no_angle (s : string) :
  Js.all_chars (λ c, negb (Js.is_angle c)) (Js.replace_angle_g s) = true.
Proof.
  induction s as [|c s IH]; [reflexivity|]. cbn [Js.replace_angle_g].
  destruct (Js.is_angle c) eqn:Hc; [exact IH|]. cbn. by rewrite Hc, IH.
Qed.

(** The identifier resolved from an embedded Message-ID contains neither
    "<" nor ">", and is a fixed point of the resolver: an email that
    carries it as its Message-ID resolves to it again, in both plugins. *)
Theorem generateMessageId_embedded_stable rt email w :
  Js.truthy (ParsedEmail.messageId email) = true →
  ∃ id,
    FirestorePlugin.generateMessageId rt email w = (inr id, w) ∧
    GcpStoragePlugin.generateMessageId rt email w = (inr id, w) ∧
    Js.all_chars (λ c, negb (Js.is_angle c)) id = true ∧
    (∀ email', ParsedEmail.messageId email' = Some id → id ≠ "" →
       FirestorePlugin.generateMessageId rt email' w = (inr id, w) ∧
       GcpStoragePlugin.generateMessageId rt email' w = (inr id, w)).
Proof.
  intros Ht. exists (Js.replace_angle_g (default "" (ParsedEmail.messageId email))).
  split; [by apply firestore_generateMessageId_embedded|].
  split; [by apply storage_generateMessageId_embedded|].
  split; [apply replace_angle_g_no_angle|].
  intros email' Hid Hne.
  assert (Ht' : Js.truthy (ParsedEmail.messageId email') = true).
  { rewrite Hid. by destruct (Js.replace_angle_g _). }
  rewrite firestore_generateMessageId_embedded, storage_generateMessageId_embedded by done.
  rewrite Hid. cbn [from_option id].
  by rewrite (replace_angle_g_clean _ (replace_angle_g_no_angle _)).
Qed.

Lemma replace_angle_g_only_angles (s : string) :
  Js.all_chars Js.is_angle s = true → Js.replace_angle_g s = "".
Proof.
  induction s as [|c s IH]; [reflexivity|]. cbn.
  destruct (Js.is_angle c); [exact IH|discriminate].
Qed.

(** An embedded Message-ID made of angle brackets only is truthy, so no
    identifier is generated, and stripping leaves the empty identifier:
    a successful run of the storage hook then stores the message under
    "emails/.eml" and publishes the empty [messageId]. *)
Theorem save_email_in_bucket_only_brackets rt cfg ms w email s :
  finish ms = StreamEnds →
  simpleParser rt (FromBuffer (concat (chunks ms))) parser_options = inr email →
  ParsedEmail.messageId email = Some s →
  s ≠ "" →
  Js.all_chars Js.is_angle s = true →
  faults rt (service_calls w) = None →
  faults rt (S (service_calls w)) = None →
  let w' := snd (GcpStoragePlugin.save_email_in_bucket rt cfg
                   (Some {| transaction := Some {| message_stream := Some ms |} |}) w) in
  GcpStoragePlugin.generateMessageId rt email w = (inr "", w) ∧
  FirestorePlugin.generateMessageId rt email w = (inr "", w) ∧
  notes_storageReference w' =
    Some {| StorageReference.bucketName := GcpStoragePlugin.bucketName cfg;
            StorageReference.objectName := "emails/.eml";
            StorageReference.messageId := "";
            StorageReference.storageUrl :=
              "gs://" ++ GcpStoragePlugin.bucketName cfg ++ "/emails/.eml" |} ∧
  is_Some (bucket_objects w' !! (GcpStoragePlugin.bucketName cfg, "emails/.eml")) ∧
  entropy_used w' = entropy_used w.
Proof.
  intros Hfin Hparse Hs Hne Hangles Hf1 Hf2 w'. subst w'.
  assert (Ht : Js.truthy (ParsedEmail.messageId email) = true)
    by (rewrite Hs; by destruct s).
  assert (Hgen : GcpStoragePlugin.generateMessageId rt email w = (inr "", w)).
  { rewrite storage_generateMessageId_embedded by done.
    rewrite Hs. cbn [from_option id].
    by rewrite (replace_angle_g_only_angles s Hangles). }
  split; [exact Hgen|]. split.
  { rewrite firestore_generateMessageId_embedded by done.
    rewrite Hs. cbn [from_option id].
    by rewrite (replace_angle_g_only_angles s Hangles). }
  rewrite save_email_in_bucket_with_stream. unfold try_catch.
  destruct (save_email_in_bucket_try_run rt cfg ms w email Hfin Hparse)
    as (id & w1 & meta & w2 & Hid & Hmeta & F & _ & ->).
  rewrite Hgen in Hid. injection Hid as <- <-.
  rewrite Hf1, Hf2.
  assert (He : entropy_used w2 = entropy_used w).
  { unfold GcpStoragePlugin.constructObjectMetadata in Hmeta.
    destruct (ParsedEmail.date email); injection Hmeta as _ <-; reflexivity. }
  destruct F as (Hb & _).
  unfold storage_tail, put_storageReference, loginfo, next. eff_unfold.
  destruct (GcpStoragePlugin.isSingleHandler cfg); world_simpl; rewrite ?Hb, ?He;
    (split; [reflexivity|]); (split; [|reflexivity]);
    unfold object_key; change ("emails/" ++ "" ++ ".eml") with "emails/.eml";
    rewrite lookup_alter_eq, lookup_insert_eq; by eexists.
Qed.

(** Every run of the storage [try] block: it throws or stalls before
    any service is called, or it goes through the upload. *)
Lemma save_email_in_bucket_try_cases rt cfg ms w :
  (∃ f : Failure, GcpStoragePlugin.save_email_in_bucket_try rt cfg ms w = (inl f, w)) ∨
  (∃ email id w1 meta w2,
     simpleParser rt (FromBuffer (concat (chunks ms))) parser_options = inr email ∧
     GcpStoragePlugin.generateMessageId rt email w = (inr id, w1) ∧
     only_counters w w2 ∧
     GcpStoragePlugin.save_email_in_bucket_try rt cfg ms w =
     match faults rt (service_calls w) with
     | Some e => (inl (Thrown e), set_service_calls (S (service_calls w)) w2)
     | None =>
         match faults rt (S (service_calls w)) with
         | Some e =>
             (inl (Thrown e), set_service_calls (S (S (service_calls w)))
                       (after_save cfg id (concat (chunks ms)) (service_calls w) w2))
         | None =>
             storage_tail cfg id
               (after_setMetadata cfg id (concat (chunks ms)) meta (service_calls w) w2)
         end
     end).
Proof.
  destruct (finish ms) as [|e|e] eqn:Hfin.
  3:{ left. exists Pending.
      exact (proj1 (save_email_in_bucket_try_pending rt cfg ms w) e Hfin). }
  2:{ left. exists (Thrown e). by apply save_email_in_bucket_try_capture_fails. }
  destruct (simpleParser rt (FromBuffer (concat (chunks ms))) parser_options)
    as [e|email] eqn:Hparse.
  { left. exists (Thrown e). by apply save_email_in_bucket_try_parse_fails. }
  right.
  destruct (save_email_in_bucket_try_run rt cfg ms w email Hfin Hparse)
    as (id & w1 & meta & w2 & Hid & _ & F & _ & Hrun).
  by exists email, id, w1, meta, w2.
Qed.

(** Every run of the firestore [try] block: it fails before any service
    is called, or it goes through the query. *)
Lemma persist_email_details_try_cases rt cfg tx w :
  (∃ e, FirestorePlugin.persist_email_details_try rt cfg tx w = (inl (Thrown e), w)) ∨
  (∃ email id w1 details w2,
     simpleParser rt (parser_input tx) parser_options = inr email ∧
     resolve_messageId rt (notes_storageReference w) email w = (inr id, w1) ∧
     only_counters w w2 ∧
     MessageDetails.messageId details = id ∧
     FirestorePlugin.persist_email_details_try rt cfg tx w =
     match faults rt (service_calls w) with
     | Some e => (inl (Thrown e), set_service_calls (S (service_calls w)) w2)
     | None =>
         match matching_recipients cfg w (to_text email) with
         | [] =>
             (inl (Thrown (Js.TypeError "Cannot read properties of undefined (reading 'ref')")),
              set_service_calls (S (service_calls w)) w2)
         | ref :: _ =>
             match faults rt (S (service_calls w)) with
             | Some e =>
                 (inl (Thrown e), set_service_calls (S (S (service_calls w)))
                           (set_service_calls (S (service_calls w)) w2))
             | None =>
                 firestore_tail id
                   (after_set (document_path cfg ref id) details (service_calls w) w2)
             end
         end
     end).
Proof.
  destruct (simpleParser rt (parser_input tx) parser_options) as [e|email] eqn:Hparse.
  { left. exists e. by apply persist_email_details_try_parse_fails. }
  destruct (resolve_messageId_cases rt (notes_storageReference w) email w)
    as [(id & w1 & Hid & F1)|(e & Hid)].
  2:{ left. exists e. by apply (persist_email_details_try_resolve_fails rt cfg tx w email). }
  right.
  destruct (persist_email_details_try_run rt cfg tx w email id w1 Hparse Hid F1)
    as (details & w2 & _ & F & _ & Hmid & Hrun).
  by exists email, id, w1, details, w2.
Qed.

(* --------------------------------------------------------------------- *)
(* What a run leaves alone, and what it costs                             *)
(* --------------------------------------------------------------------- *)

(** The storage hook never writes to the document store, and the
    firestore hook never writes to the bucket nor to the notes; neither
    touches the recipient collections. *)
Theorem hooks_leave_the_other_store rt :
  (∀ cfg connection w,
     let w' := snd (GcpStoragePlugin.save_email_in_bucket rt cfg connection w) in
     metadata_documents w' = metadata_documents w ∧
     recipient_collections w' = recipient_collections w) ∧
  (∀ cfg connection w,
     let w' := snd (FirestorePlugin.persist_email_details rt cfg connection w) in
     bucket_objects w' = bucket_objects w ∧
     notes_storageReference w' = notes_storageReference w ∧
     recipient_collections w' = recipient_collections w).
Proof.
  split; intros cfg connection w w'; subst w'.
  - destruct connection as [[[[[ms|]]|]]|]; try (split; reflexivity).
    rewrite save_email_in_bucket_with_stream. unfold try_catch.
    destruct (save_email_in_bucket_try_cases rt cfg ms w)
      as [[[e|] ->]|(email & id & w1 & meta & w2 & _ & _ & F & ->)].
    { rewrite save_email_in_bucket_catch_run. by world_simpl. }
    { by world_simpl. }
    destruct F as (_ & Hr & Hm & _).
    destruct (faults rt (service_calls w)).
    { rewrite save_email_in_bucket_catch_run. world_simpl. by rewrite Hr, Hm. }
    destruct (faults rt (S (service_calls w))).
    { rewrite save_email_in_bucket_catch_run. world_simpl. by rewrite Hr, Hm. }
    unfold storage_tail, put_storageReference, loginfo, next. eff_unfold.
    destruct (GcpStoragePlugin.isSingleHandler cfg); world_simpl; by rewrite Hr, Hm.
  - destruct connection as [[[tx|]]|]; try (repeat split; reflexivity).
    rewrite persist_email_details_with_transaction. unfold try_catch.
    destruct (persist_email_details_try_cases rt cfg tx w)
      as [[e ->]|(email & id & w1 & details & w2 & _ & _ & F & _ & ->)].
    { rewrite persist_email_details_catch_run. by world_simpl. }
    destruct F as (Hb & Hr & _ & Hn & _).
    destruct (faults rt (service_calls w)).
    { rewrite persist_email_details_catch_run. world_simpl. by rewrite Hb, Hr, Hn. }
    destruct (matching_recipients cfg w (to_text email)).
    { rewrite persist_email_details_catch_run. world_simpl. by rewrite Hb, Hr, Hn. }
    destruct (faults rt (S (service_calls w))).
    { rewrite persist_email_details_catch_run. world_simpl. by rewrite Hb, Hr, Hn. }
    unfold firestore_tail, loginfo, next. eff_unfold. world_simpl.
    by rewrite Hb, Hr, Hn.
Qed.

(** No run of either hook makes more than two service calls: a rejected
    call is never repeated within the run. *)
Theorem hooks_make_at_most_two_service_calls rt :
  (∀ cfg connection w,
     let w' := snd (GcpStoragePlugin.save_email_in_bucket rt cfg connection w) in
     (service_calls w ≤ service_calls w' ≤ service_calls w + 2)%nat) ∧
  (∀ cfg connection w,
     let w' := snd (FirestorePlugin.persist_email_details rt cfg connection w) in
     (service_calls w ≤ service_calls w' ≤ service_calls w + 2)%nat).
Proof.
  split; intros cfg connection w w'; subst w'.
  - destruct connection as [[[[[ms|]]|]]|]; try (cbn; lia).
    rewrite save_email_in_bucket_with_stream. unfold try_catch.
    destruct (save_email_in_bucket_try_cases rt cfg ms w)
      as [[[e|] ->]|(email & id & w1 & meta & w2 & _ & _ & F & ->)].
    { rewrite save_email_in_bucket_catch_run. world_simpl. lia. }
    { world_simpl. lia. }
    destruct (faults rt (service_calls w)).
    { rewrite save_email_in_bucket_catch_run. world_simpl. lia. }
    destruct (faults rt (S (service_calls w))).
    { rewrite save_email_in_bucket_catch_run. world_simpl. lia. }
    unfold storage_tail, put_storageReference, loginfo, next. eff_unfold.
    destruct (GcpStoragePlugin.isSingleHandler cfg); world_simpl; lia.
  - destruct connection as [[[tx|]]|]; try (cbn; lia).
    rewrite persist_email_details_with_transaction. unfold try_catch.
    destruct (persist_email_details_try_cases rt cfg tx w)
      as [[e ->]|(email & id & w1 & details & w2 & _ & _ & F & _ & ->)].
    { rewrite persist_email_details_catch_run. world_simpl. lia. }
    destruct (faults rt (service_calls w)).
    { rewrite persist_email_details_catch_run. world_simpl. lia. }
    destruct (matching_recipients cfg w (to_text email)).
    { rewrite persist_email_details_catch_run. world_simpl. lia. }
    destruct (faults rt (S (service_calls w))).
    { rewrite persist_email_details_catch_run. world_simpl. lia. }
    unfold firestore_tail, loginfo, next. eff_unfold. world_simpl. lia.
Qed.

(* --------------------------------------------------------------------- *)
(* More on the firestore hook                                             *)
(* --------------------------------------------------------------------- *)

(** For a parsed message that carries its identifier, the firestore hook
    accepts exactly when the query resolves, returns at least one
    recipient document and the write resolves; it then sets one document
    under the first recipient returned.  In every other case it asks for
    a retry and writes nothing. *)
Theorem persist_email_details_accepts_iff rt cfg tx w email id :
  simpleParser rt (parser_input tx) parser_options = inr email →
  carried_identifier (notes_storageReference w) email = Some id →
  let w' := snd (FirestorePlugin.persist_email_details rt cfg
                   (Some {| transaction := Some tx |}) w) in
  let success :=
    faults rt (service_calls w) = None ∧
    matching_recipients cfg w (to_text email) ≠ [] ∧
    faults rt (S (service_calls w)) = None in
  (success →
   next_calls w' = (next_calls w ++ [accept])%list ∧
   ∃ ref details,
     head (matching_recipients cfg w (to_text email)) = Some ref ∧
     MessageDetails.messageId details = id ∧
     metadata_documents w' = <[document_path cfg ref id := details]> (metadata_documents w)) ∧
  (¬ success →
   next_calls w' = (next_calls w ++ [soft_reject])%list ∧
   metadata_documents w' = metadata_documents w).
Proof.
  intros Hparse Hcarried w' success. subst w'.
  rewrite persist_email_details_with_transaction. unfold try_catch.
  pose proof (resolve_messageId_carried_run rt _ email id w Hcarried) as Hid.
  destruct (persist_email_details_try_run rt cfg tx w email id w Hparse Hid
              (only_counters_refl w))
    as (details & w2 & _ & F & _ & Hmid & ->).
  destruct F as (_ & _ & Hm & _ & _ & _ & Hc).
  unfold success.
  destruct (faults rt (service_calls w)) as [e|].
  { rewrite persist_email_details_catch_run. world_simpl. rewrite Hm, Hc.
    split; [intros (? & _); discriminate|done]. }
  destruct (matching_recipients cfg w (to_text email)) as [|ref rest].
  { rewrite persist_email_details_catch_run. world_simpl. rewrite Hm, Hc.
    split; [intros (_ & ? & _); done|done]. }
  destruct (faults rt (S (service_calls w))) as [e|].
  { rewrite persist_email_details_catch_run. world_simpl. rewrite Hm, Hc.
    split; [intros (_ & _ & ?); discriminate|done]. }
  unfold firestore_tail, loginfo, next. eff_unfold. world_simpl. rewrite Hm, Hc.
  split.
  - intros _. split; [done|]. by exists ref, details.
  - intros Hno. destruct Hno. done.
Qed.

(** A run of the firestore hook changes at most one document, the one
    under the first recipient document the query returned; recipient
    documents returned after the first receive nothing. *)
Theorem persist_email_details_other_documents rt cfg connection w path :
  let w' := snd (FirestorePlugin.persist_email_details rt cfg connection w) in
  metadata_documents w' !! path ≠ metadata_documents w !! path →
  ∃ tx email id w1 ref rest,
    connection = Some {| transaction := Some tx |} ∧
    simpleParser rt (parser_input tx) parser_options = inr email ∧
    resolve_messageId rt (notes_storageReference w) email w = (inr id, w1) ∧
    matching_recipients cfg w (to_text email) = ref :: rest ∧
    path = document_path cfg ref id.
Proof.
  intros w'. subst w'.
  destruct connection as [[[tx|]]|]; try (intros H; by destruct H).
  destruct (persist_email_details_documents rt cfg tx w) as (_ & _ & [[_ ->]|[_ Hdoc]]).
  { intros H. by destruct H. }
  destruct Hdoc as (email & id & w1 & details & ref & Hparse & Hid & Hhead & _ & ->).
  intros Hne.
  destruct (matching_recipients cfg w (to_text email)) as [|ref' rest] eqn:Hm;
    [discriminate|]. injection Hhead as ->.
  exists tx, email, id, w1, ref, rest. repeat split; try done.
  destruct (decide (path = document_path cfg ref id)) as [->|Hp]; [done|].
  destruct Hne. by rewrite lookup_insert_ne.
Qed.

(* --------------------------------------------------------------------- *)
(* What the operator reads in the log                                     *)
(* --------------------------------------------------------------------- *)

(** The storage hook logs nothing on the skip path, nothing either when
    its [try] block waits forever on a message stream that failed,
    exactly one error line carrying the message of the error that ended
    the [try] block when it asks for a retry, and otherwise the line
    naming identifier, bucket and object followed by the line naming the
    mode. *)
Theorem save_email_in_bucket_log rt cfg connection w :
  let w' := snd (GcpStoragePlugin.save_email_in_bucket rt cfg connection w) in
  match connection with
  | Some {| transaction := Some {| message_stream := Some ms |} |} =>
      match fst (GcpStoragePlugin.save_email_in_bucket_try rt cfg ms w) with
      | inl (Thrown e) =>
          log w' = (log w ++ [(LOGERROR,
                               "Failed to save email in GCP Storage: " ++ Js.message e)%string])%list
      | inl Pending => log w' = log w
      | inr _ =>
          ∃ id,
            notes_storageReference w' = Some (published_reference cfg id) ∧
            log w' =
              (log w ++
               [(LOGINFO, "Email " ++ id ++ " successfully saved in GCP bucket: " ++
                          GcpStoragePlugin.bucketName cfg ++ ", object: " ++
                          ("emails/" ++ id ++ ".eml"))%string;
                (LOGINFO,
                 if GcpStoragePlugin.isSingleHandler cfg
                 then "Single handler mode enabled, message is queued successfully."
                 else "Proceeding to next handler after saving email in GCP Storage.")])%list
      end
  | _ => log w' = log w
  end.
Proof.
  intros w'. subst w'.
  destruct connection as [[[[[ms|]]|]]|]; try reflexivity.
  rewrite save_email_in_bucket_with_stream. unfold try_catch.
  destruct (save_email_in_bucket_try_cases rt cfg ms w)
    as [[[e|] ->]|(email & id & w1 & meta & w2 & _ & _ & F & ->)].
  { by rewrite save_email_in_bucket_catch_run. }
  { reflexivity. }
  destruct F as (_ & _ & _ & _ & _ & Hl & _).
  destruct (faults rt (service_calls w)).
  { rewrite save_email_in_bucket_catch_run. world_simpl. by rewrite Hl. }
  destruct (faults rt (S (service_calls w))).
  { rewrite save_email_in_bucket_catch_run. world_simpl. by rewrite Hl. }
  rewrite storage_tail_fst. exists id.
  unfold storage_tail, put_storageReference, loginfo, next. eff_unfold.
  destruct (GcpStoragePlugin.isSingleHandler cfg); world_simpl; rewrite Hl;
    by rewrite <- app_assoc.
Qed.

(** The firestore hook logs nothing on the skip path, exactly one error
    line carrying the message of the error that ended the [try] block
    when it asks for a retry, and otherwise one line naming the
    identifier under which the document was set; its [try] block never
    waits forever. *)
Theorem persist_email_details_log rt cfg connection w :
  let w' := snd (FirestorePlugin.persist_email_details rt cfg connection w) in
  match connection with
  | Some {| transaction := Some tx |} =>
      match fst (FirestorePlugin.persist_email_details_try rt cfg tx w) with
      | inl (Thrown e) =>
          log w' = (log w ++ [(LOGERROR,
                               "Failed to persist email details in Firestore: " ++
                               Js.message e)%string])%list
      | inl Pending => False
      | inr _ =>
          ∃ ref id details,
            metadata_documents w' !! document_path cfg ref id = Some details ∧
            log w' =
              (log w ++ [(LOGINFO, "Message details for " ++ id ++
                                   " successfully persisted in Firestore")%string])%list
      end
  | _ => log w' = log w
  end.
Proof.
  intros w'. subst w'.
  destruct connection as [[[tx|]]|]; try reflexivity.
  rewrite persist_email_details_with_transaction. unfold try_catch.
  destruct (persist_email_details_try_cases rt cfg tx w)
    as [[e ->]|(email & id & w1 & details & w2 & _ & _ & F & _ & ->)].
  { by rewrite persist_email_details_catch_run. }
  destruct F as (_ & _ & _ & _ & _ & Hl & _).
  destruct (faults rt (service_calls w)).
  { rewrite persist_email_details_catch_run. world_simpl. by rewrite Hl. }
  destruct (matching_recipients cfg w (to_text email)) as [|ref rest].
  { rewrite persist_email_details_catch_run. world_simpl. by rewrite Hl. }
  destruct (faults rt (S (service_calls w))).
  { rewrite persist_email_details_catch_run. world_simpl. by rewrite Hl. }
  rewrite firestore_tail_fst. exists ref, id, details.
  unfold firestore_tail, loginfo, next. eff_unfold. world_simpl. rewrite Hl.
  split; [apply lookup_insert_eq|done].
Qed.

(* --------------------------------------------------------------------- *)
(* The two hooks, one after the other                                     *)
(* --------------------------------------------------------------------- *)

(** Archival then metadata, for one message.  When the stream ends, the
    parser accepts the captured bytes and the stream, the storage plugin
    is not the sole handler, none of the four service calls is rejected
    and a recipient document matches, the storage hook calls [next()],
    the firestore hook calls [next(OK)], and the document written under
    the first matching recipient carries the identifier, bucket, object
    key and URL of the object that was stored, whose attached metadata
    carries the same identifier.  This holds with or without a
    Message-ID header. *)
Theorem archive_then_metadata_round_trip rt scfg fcfg ms w0 es ef ref rest :
  finish ms = StreamEnds →
  simpleParser rt (FromBuffer (concat (chunks ms))) parser_options = inr es →
  simpleParser rt (FromStream ms) parser_options = inr ef →
  GcpStoragePlugin.isSingleHandler scfg = false →
  (∀ i, (i < 4)%nat → faults rt (service_calls w0 + i) = None) →
  matching_recipients fcfg w0 (to_text ef) = ref :: rest →
  let connection := Some {| transaction := Some {| message_stream := Some ms |} |} in
  let w1 := snd (GcpStoragePlugin.save_email_in_bucket rt scfg connection w0) in
  let w2 := snd (FirestorePlugin.persist_email_details rt fcfg connection w1) in
  ∃ id meta details,
    next_calls w2 = (next_calls w0 ++ [proceed; accept])%list ∧
    bucket_objects w2 !! (GcpStoragePlugin.bucketName scfg, "emails/" ++ id ++ ".eml") =
      Some {| body := concat (chunks ms); attached := Some meta |} ∧
    ObjectMetadata.messageId (ObjectMetadata.metadata meta) = id ∧
    metadata_documents w2 =
      <[document_path fcfg ref id := details]> (metadata_documents w0) ∧
    MessageDetails.messageId details = id ∧
    MessageDetails.bucketName details = Some (GcpStoragePlugin.bucketName scfg) ∧
    MessageDetails.objectName details = Some ("emails/" ++ id ++ ".eml") ∧
    MessageDetails.storageUrl details =
      Some ("gs://" ++ GcpStoragePlugin.bucketName scfg ++ "/" ++
            ("emails/" ++ id ++ ".eml")).
Proof.
  intros Hfin Hes Hef Hsingle Hfaults Hmatch connection w1 w2.
  assert (Hf0 : faults rt (service_calls w0) = None)
    by (rewrite <- (Nat.add_0_r (service_calls w0)); apply Hfaults; lia).
  assert (Hf1 : faults rt (S (service_calls w0)) = None)
    by (replace (S (service_calls w0)) with (service_calls w0 + 1)%nat by lia;
        apply Hfaults; lia).
  assert (Hf2 : faults rt (S (S (service_calls w0))) = None)
    by (replace (S (S (service_calls w0))) with (service_calls w0 + 2)%nat by lia;
        apply Hfaults; lia).
  assert (Hf3 : faults rt (S (S (S (service_calls w0)))) = None)
    by (replace (S (S (S (service_calls w0)))) with (service_calls w0 + 3)%nat by lia;
        apply Hfaults; lia).
  destruct (save_email_in_bucket_try_run rt scfg ms w0 es Hfin Hes)
    as (id & wa & meta & wb & _ & _ & F & Hmid & Hrun).
  rewrite Hf0, Hf1 in Hrun.
  destruct F as (Hb & Hr & Hm & _ & _ & _ & Hc).
  assert (Hw1 : notes_storageReference w1 = Some (published_reference scfg id) ∧
                service_calls w1 = S (S (service_calls w0)) ∧
                recipient_collections w1 = recipient_collections w0 ∧
                metadata_documents w1 = metadata_documents w0 ∧
                next_calls w1 = (next_calls w0 ++ [proceed])%list ∧
                bucket_objects w1 =
                  alter (λ o, {| body := body o; attached := Some meta |})
                    (object_key scfg id)
                    (<[object_key scfg id :=
                         {| body := concat (chunks ms); attached := None |}]>
                       (bucket_objects w0))).
  { subst w1 connection. rewrite save_email_in_bucket_with_stream. unfold try_catch.
    rewrite Hrun. unfold storage_tail, put_storageReference, loginfo, next. eff_unfold.
    rewrite Hsingle. world_simpl. by rewrite Hb, Hr, Hm, Hc. }
  destruct Hw1 as (Hn1 & Hs1 & Hr1 & Hm1 & Hc1 & Hb1).
  assert (Hid : resolve_messageId rt (notes_storageReference w1) ef w1 = (inr id, w1))
    by (by rewrite Hn1).
  destruct (persist_email_details_try_run rt fcfg {| message_stream := Some ms |} w1 ef id w1
              Hef Hid (only_counters_refl w1))
    as (details & wc & Hd & F & _ & Hdid & Hrun2).
  rewrite Hs1, Hf2, Hf3, (matching_recipients_same fcfg w0 w1 _ Hr1), Hmatch in Hrun2.
  destruct (constructMessageDetails_returns rt ef id (notes_storageReference w1) w1)
    as (details' & wc' & Hd' & _ & _ & _ & _ & Hbn & Hon & Hsu).
  rewrite Hd in Hd'. injection Hd' as <- <-.
  rewrite Hn1 in Hbn, Hon, Hsu.
  destruct F as (Hb2 & _ & Hm2 & _ & _ & _ & Hc2).
  exists id, meta, details.
  assert (Hw2 : next_calls w2 = (next_calls w1 ++ [accept])%list ∧
                bucket_objects w2 = bucket_objects w1 ∧
                metadata_documents w2 =
                  <[document_path fcfg ref id := details]> (metadata_documents w1)).
  { subst w2 connection. rewrite persist_email_details_with_transaction.
    unfold try_catch. rewrite Hrun2. unfold firestore_tail, loginfo, next. eff_unfold.
    world_simpl. by rewrite Hb2, Hm2, Hc2. }
  destruct Hw2 as (-> & -> & ->).
  rewrite Hc1, Hb1, Hm1, <- app_assoc.
  split; [done|]. split.
  { unfold object_key. by rewrite lookup_alter_eq, lookup_insert_eq. }
  done.
Qed.

(* --------------------------------------------------------------------- *)
(* The records the two plugins build                                      *)
(* --------------------------------------------------------------------- *)

Lemma or_else_default (o : option string) : Js.or_else o "" = default "" o.
Proof. by destruct o as [[|c s]|]. Qed.

(** [constructMessageDetails] never fails and keeps every text field it
    is given, the empty string included: the [||] defaults and the
    truthiness tests only ever replace an absent value.  [inReplyTo] is
    the one field where the empty string is turned into [null]. *)
Lemma constructMessageDetails_fields rt email id ref w :
  ∃ d w',
    FirestorePlugin.constructMessageDetails rt email id ref w = (inr d, w') ∧
    MessageDetails.subject d = default "" (ParsedEmail.subject email) ∧
    MessageDetails.from d = default "" (AddressObject.text <$> ParsedEmail.from email) ∧
    MessageDetails.to d = default "" (AddressObject.text <$> ParsedEmail.to email) ∧
    MessageDetails.cc d = default "" (AddressObject.text <$> ParsedEmail.cc email) ∧
    MessageDetails.bcc d = default "" (AddressObject.text <$> ParsedEmail.bcc email) ∧
    length (MessageDetails.ccAddresses d) =
      length (default [] (AddressObject.value <$> ParsedEmail.cc email)) ∧
    MessageDetails.plainTextLength d = Js.length (default "" (ParsedEmail.text email)) ∧
    MessageDetails.attachmentsCount d = length (default [] (ParsedEmail.attachments email)) ∧
    (MessageDetails.inReplyTo d = None ↔
     ParsedEmail.inReplyTo email = None ∨ ParsedEmail.inReplyTo email = Some "") ∧
    (∀ s, MessageDetails.inReplyTo d = Some s → ParsedEmail.inReplyTo email = Some s).
Proof.
  unfold FirestorePlugin.constructMessageDetails.
  destruct (ParsedEmail.date email); eexists _, _; (split; [reflexivity|]);
    cbn [MessageDetails.subject MessageDetails.from MessageDetails.to MessageDetails.cc
         MessageDetails.bcc MessageDetails.ccAddresses MessageDetails.plainTextLength
         MessageDetails.attachmentsCount MessageDetails.inReplyTo];
    rewrite !or_else_default, length_fmap;
    (repeat split; try reflexivity);
    try (by destruct (ParsedEmail.text email) as [[|c s]|]);
    try (by destruct (ParsedEmail.attachments email));
    destruct (ParsedEmail.inReplyTo email) as [[|c s]|]; cbn; try done;
    try (intros [?|?]; done); try (intros _; by right); try (intros _; by left).
Qed.

(** [receivedDate] is always an ISO string read off the clock.  [date] is
    the email's own [Date] object when it has one, and otherwise an ISO
    string read off the clock just before [receivedDate]: with a clock
    that never runs backwards it is never later than [receivedDate]. *)
Theorem constructMessageDetails_dates rt email id ref w :
  monotone_clock rt →
  ∃ d w',
    FirestorePlugin.constructMessageDetails rt email id ref w = (inr d, w') ∧
    match ParsedEmail.date email with
    | Some t =>
        MessageDetails.date d = DateObject t ∧
        MessageDetails.receivedDate d = IsoString (clock rt (clock_reads w)) ∧
        clock_reads w' = S (clock_reads w)
    | None =>
        MessageDetails.date d = IsoString (clock rt (clock_reads w)) ∧
        MessageDetails.receivedDate d = IsoString (clock rt (S (clock_reads w))) ∧
        (instant (MessageDetails.date d) ≤ instant (MessageDetails.receivedDate d))%Z ∧
        clock_reads w' = S (S (clock_reads w))
    end.
Proof.
  intros Hmono. unfold FirestorePlugin.constructMessageDetails.
  destruct (ParsedEmail.date email); eexists _, _; (split; [reflexivity|]); cbn.
  - done.
  - repeat split. apply Hmono. lia.
Qed.

(** Built from the same parsed email and identifier, the object metadata
    and the firestore record agree on [messageId], [subject], [from] and
    [to]; the object's content type is always "message/rfc822", and its
    [date] is always an ISO string, of the email's date when it has one. *)
Theorem constructObjectMetadata_agrees rt email id ref w w0 :
  ∃ meta w' d w0',
    GcpStoragePlugin.constructObjectMetadata rt email id w = (inr meta, w') ∧
    FirestorePlugin.constructMessageDetails rt email id ref w0 = (inr d, w0') ∧
    ObjectMetadata.contentType meta = "message/rfc822" ∧
    ObjectMetadata.resumable meta = false ∧
    ObjectMetadata.messageId (ObjectMetadata.metadata meta) = MessageDetails.messageId d ∧
    ObjectMetadata.subject (ObjectMetadata.metadata meta) = MessageDetails.subject d ∧
    ObjectMetadata.from (ObjectMetadata.metadata meta) = MessageDetails.from d ∧
    ObjectMetadata.to (ObjectMetadata.metadata meta) = MessageDetails.to d ∧
    (∃ ms, ObjectMetadata.date (ObjectMetadata.metadata meta) = IsoString ms) ∧
    (∀ t, ParsedEmail.date email = Some t →
          ObjectMetadata.date (ObjectMetadata.metadata meta) = IsoString t ∧
          MessageDetails.date d = DateObject t).
Proof.
  unfold GcpStoragePlugin.constructObjectMetadata, FirestorePlugin.constructMessageDetails.
  destruct (ParsedEmail.date email) as [t|]; eexists _, _, _, _;
    (split; [reflexivity|]); (split; [reflexivity|]); cbn;
    (do 6 (split; [reflexivity|])); (split; [by eexists|]).
  - by intros ? [= <-].
  - intros ? [=].
Qed.

(* --------------------------------------------------------------------- *)
(* The init and data hooks                                                *)
(* --------------------------------------------------------------------- *)

(** [initialize_firestore] creates the client only when
    [server.notes.firestore] is absent, with [keyFilename] among its
    options exactly when [gcp.isLocalEnv] is set.  A handle that exists
    is kept as it is and nothing is logged, so a second initialisation,
    whatever the configuration then says, changes nothing.  The storage
    handle is never touched and [next()] is called once per call. *)
Theorem initialize_firestore_once gcp gcp' server w :
  ∃ server1 w1,
    FirestoreHooks.initialize_firestore gcp server w = (inr server1, w1) ∧
    gcpStorage server1 = gcpStorage server ∧
    next_calls w1 = (next_calls w ++ [proceed])%list ∧
    match firestore server with
    | Some c => server1 = server ∧ log w1 = log w
    | None =>
        ∃ c, firestore server1 = Some c ∧
             FirestoreClient.projectId c = FirestoreHooks.projectId gcp ∧
             FirestoreClient.databaseId c = FirestoreHooks.firestoreDbId gcp ∧
             (is_Some (FirestoreClient.keyFilename c) ↔
              FirestoreHooks.isLocalEnv gcp = true) ∧
             (FirestoreHooks.isLocalEnv gcp = true →
              FirestoreClient.keyFilename c = Some (FirestoreHooks.keyFilePath gcp)) ∧
             log w1 = (log w ++ [(LOGINFO, "Firestore client initialized successfully")])%list
    end ∧
    ∃ w2,
      FirestoreHooks.initialize_firestore gcp' server1 w1 = (inr server1, w2) ∧
      log w2 = log w1 ∧
      next_calls w2 = (next_calls w1 ++ [proceed])%list.
Proof.
  unfold FirestoreHooks.initialize_firestore.
  destruct (firestore server) as [c|] eqn:Hc.
  - exists server, (set_next_calls (next_calls w ++ [proceed])%list w).
    rewrite Hc. repeat split. by eexists.
  - eexists _, _. split; [reflexivity|]. cbn. repeat split.
    + eexists. split; [reflexivity|]. cbn.
      destruct (FirestoreHooks.isLocalEnv gcp); repeat split; try done;
        try (by eexists); by intros [? [=]].
    + by eexists.
Qed.

(** The same for [initialize_storage] and [server.notes.gcpStorage]. *)
Theorem initialize_storage_once gcp gcp' server w :
  ∃ server1 w1,
    GcpStorageHooks.initialize_storage gcp server w = (inr server1, w1) ∧
    firestore server1 = firestore server ∧
    next_calls w1 = (next_calls w ++ [proceed])%list ∧
    match gcpStorage server with
    | Some c => server1 = server ∧ log w1 = log w
    | None =>
        ∃ c, gcpStorage server1 = Some c ∧
             StorageClient.projectId c = GcpStorageHooks.projectId gcp ∧
             (is_Some (StorageClient.keyFilename c) ↔
              GcpStorageHooks.isLocalEnv gcp = true) ∧
             (GcpStorageHooks.isLocalEnv gcp = true →
              StorageClient.keyFilename c = Some (GcpStorageHooks.keyFilePath gcp)) ∧
             log w1 = (log w ++ [(LOGINFO, "GCP Storage client initialized successfully")])%list
    end ∧
    ∃ w2,
      GcpStorageHooks.initialize_storage gcp' server1 w1 = (inr server1, w2) ∧
      log w2 = log w1 ∧
      next_calls w2 = (next_calls w1 ++ [proceed])%list.
Proof.
  unfold GcpStorageHooks.initialize_storage.
  destruct (gcpStorage server) as [c|] eqn:Hc.
  - exists server, (set_next_calls (next_calls w ++ [proceed])%list w).
    rewrite Hc. repeat split. by eexists.
  - eexists _, _. split; [reflexivity|]. cbn. repeat split.
    + eexists. split; [reflexivity|]. cbn.
      destruct (GcpStorageHooks.isLocalEnv gcp); repeat split; try done;
        try (by eexists); by intros [? [=]].
    + by eexists.
Qed.

(** The two plugins share [server.notes] without disturbing each other:
    whichever init hook runs first, the notes end up the same, with both
    handles present. *)
Theorem init_hooks_commute fgcp sgcp server w :
  ∃ sa wa sb wb sab wab sba wba,
    FirestoreHooks.initialize_firestore fgcp server w = (inr sa, wa) ∧
    GcpStorageHooks.initialize_storage sgcp sa wa = (inr sab, wab) ∧
    GcpStorageHooks.initialize_storage sgcp server w = (inr sb, wb) ∧
    FirestoreHooks.initialize_firestore fgcp sb wb = (inr sba, wba) ∧
    sab = sba ∧
    is_Some (firestore sab) ∧ is_Some (gcpStorage sab) ∧
    next_calls wab = (next_calls w ++ [proceed; proceed])%list ∧
    next_calls wba = (next_calls w ++ [proceed; proceed])%list.
Proof.
  unfold FirestoreHooks.initialize_firestore, GcpStorageHooks.initialize_storage.
  destruct server as [[f|] [g|]]; eexists _, _, _, _, _, _, _, _;
    (split; [reflexivity|]); (split; [reflexivity|]); (split; [reflexivity|]);
    (split; [reflexivity|]); cbn;
    rewrite <- ?app_assoc; repeat split; by eexists.
Qed.

(** The data hook has no guard.  On a connection with a transaction it
    sets [parse_body], whatever it was, and calls [next()] once; without
    a connection or a transaction it throws before calling [next], where
    both queue hooks call [next()] and return. *)
Theorem enable_transaction_body_parse_unguarded rt fcfg scfg connection flag w :
  FirestoreHooks.enable_transaction_body_parse connection flag w =
  GcpStorageHooks.enable_transaction_body_parse connection flag w ∧
  match connection with
  | Some {| transaction := Some tx |} =>
      FirestoreHooks.enable_transaction_body_parse connection flag w =
      (inr true, set_next_calls (next_calls w ++ [proceed])%list w)
  | _ =>
      (∃ e, FirestoreHooks.enable_transaction_body_parse connection flag w = (inl (Thrown e), w)) ∧
      FirestorePlugin.persist_email_details rt fcfg connection w =
        (inr tt, set_next_calls (next_calls w ++ [proceed])%list w) ∧
      GcpStoragePlugin.save_email_in_bucket rt scfg connection w =
        (inr tt, set_next_calls (next_calls w ++ [proceed])%list w)
  end.
Proof.
  split; [reflexivity|].
  destruct connection as [[[tx|]]|]; [reflexivity| |];
    (split; [by eexists|split; reflexivity]).
Qed.

(* --------------------------------------------------------------------- *)
(* The further properties at the sample deployment                        *)
(* --------------------------------------------------------------------- *)

Lemma save_email_in_bucket_metadata_attach_rejected_witness :
  faults (Scenario.second_call_rejected (Sample.hello (Some "<abc@x>"))) 1 =
    Some (Js.ServiceError "metadata rejected") ∧
  bucket_objects
    (snd (GcpStoragePlugin.save_email_in_bucket
            (Scenario.second_call_rejected (Sample.hello (Some "<abc@x>")))
            Sample.storage_cfg Scenario.stream_connection
            (Sample.world [Sample.merchant] None)))
    !! ("mail-archive", "emails/abc@x.eml") =
    Some {| body := [x68; x69]; attached := None |}.
Proof.
  split; [reflexivity|].
  destruct (save_email_in_bucket_metadata_attach_rejected
              (Scenario.second_call_rejected (Sample.hello (Some "<abc@x>")))
              Sample.storage_cfg Sample.stream (Sample.world [Sample.merchant] None)
              (Sample.hello (Some "<abc@x>")) (Js.ServiceError "metadata rejected")
              eq_refl eq_refl eq_refl eq_refl)
    as (id & w1 & Hid & Hobj & _).
  injection Hid as <- _. exact Hobj.
Defined.

Lemma save_email_in_bucket_other_objects_witness :
  ∃ ms email id w1,
    Scenario.stream_connection =
      Some {| transaction := Some {| message_stream := Some ms |} |} ∧
    simpleParser (Sample.haraka (Sample.hello (Some "<abc@x>")))
      (FromBuffer (concat (chunks ms))) parser_options = inr email ∧
    GcpStoragePlugin.generateMessageId (Sample.haraka (Sample.hello (Some "<abc@x>")))
      email (Sample.world [Sample.merchant] None) = (inr id, w1) ∧
    faults (Sample.haraka (Sample.hello (Some "<abc@x>")))
      (service_calls (Sample.world [Sample.merchant] None)) = None ∧
    ("mail-archive", "emails/abc@x.eml") =
      (GcpStoragePlugin.bucketName Sample.storage_cfg, "emails/" ++ id ++ ".eml").
Proof.
  apply (save_email_in_bucket_other_objects
           (Sample.haraka (Sample.hello (Some "<abc@x>")))
           Sample.storage_cfg Scenario.stream_connection
           (Sample.world [Sample.merchant] None)
           ("mail-archive", "emails/abc@x.eml")).
  vm_compute. discriminate.
Defined.

Lemma save_email_in_bucket_twice_same_key_witness :
  let rt := Sample.haraka (Sample.hello (Some "<abc@x>")) in
  let w0 := Sample.world [Sample.merchant] None in
  let w1 := snd (GcpStoragePlugin.save_email_in_bucket rt Sample.storage_cfg
                   Scenario.stream_connection w0) in
  let w2 := snd (GcpStoragePlugin.save_email_in_bucket rt Sample.storage_cfg
                   Scenario.stream_connection w1) in
  Js.truthy (ParsedEmail.messageId (Sample.hello (Some "<abc@x>"))) = true ∧
  dom (bucket_objects w2) ⊆
    {[object_key Sample.storage_cfg "abc@x"]} ∪ dom (bucket_objects w0) ∧
  next_calls w2 = [success_call Sample.storage_cfg; success_call Sample.storage_cfg] ∧
  ∃ meta2,
    fst (GcpStoragePlugin.constructObjectMetadata rt (Sample.hello (Some "<abc@x>"))
           "abc@x" w1) = inr meta2 ∧
    bucket_objects w2 !! object_key Sample.storage_cfg "abc@x" =
      Some {| body := [x68; x69]; attached := Some meta2 |} ∧
    size (bucket_objects w2) = size (bucket_objects w1).
Proof.
  intros rt w0 w1 w2.
  destruct (save_email_in_bucket_twice_same_key rt Sample.storage_cfg Sample.stream w0
              (Sample.hello (Some "<abc@x>")) eq_refl eq_refl eq_refl)
    as [Hdom Hboth].
  split; [reflexivity|]. split; [exact Hdom|]. split; [reflexivity|].
  destruct (Hboth eq_refl) as ((meta1 & meta2 & _ & Hmeta & _ & _ & Hobj) & _ & Hsize).
  exists meta2. split; [exact Hmeta|]. split; [exact Hobj|exact Hsize].
Defined.

Lemma storage_generated_identifier_inj_witness :
  fst (GcpStoragePlugin.generateMessageId (Sample.haraka (Sample.hello None))
         (Sample.hello None) (Sample.world [] None)) =
    inr "00ab1010101010101010101010101010-1730000000000" ∧
  clock (Sample.haraka (Sample.hello None)) 0 =
  clock (Sample.runtime CryptoNode (Sample.hello None)) 0.
Proof.
  split; [reflexivity|].
  exact (proj2 (storage_generated_identifier_inj
                  (Sample.haraka (Sample.hello None))
                  (Sample.runtime CryptoNode (Sample.hello None))
                  (Sample.hello None) (Sample.hello None)
                  (Sample.world [] None) (Sample.world [Sample.merchant] None)
                  eq_refl eq_refl eq_refl)).
Defined.

Lemma generateMessageId_embedded_stable_witness :
  Js.truthy (ParsedEmail.messageId (Sample.hello (Some "<a<b>c@x>"))) = true ∧
  ∃ id,
    FirestorePlugin.generateMessageId (Sample.haraka (Sample.hello (Some "<a<b>c@x>")))
      (Sample.hello (Some "<a<b>c@x>")) (Sample.world [] None) =
      (inr id, Sample.world [] None) ∧
    Js.all_chars (λ c, negb (Js.is_angle c)) id = true.
Proof.
  split; [reflexivity|].
  destruct (generateMessageId_embedded_stable
              (Sample.haraka (Sample.hello (Some "<a<b>c@x>")))
              (Sample.hello (Some "<a<b>c@x>")) (Sample.world [] None) eq_refl)
    as (id & Hf & _ & Hclean & _).
  exists id. split; [exact Hf|exact Hclean].
Defined.

Lemma save_email_in_bucket_only_brackets_witness :
  ParsedEmail.messageId (Sample.hello (Some "<>")) = Some "<>" ∧
  Js.all_chars Js.is_angle "<>" = true ∧
  notes_storageReference
    (snd (GcpStoragePlugin.save_email_in_bucket (Sample.haraka (Sample.hello (Some "<>")))
            Sample.storage_cfg Scenario.stream_connection
            (Sample.world [Sample.merchant] None))) =
    Some {| StorageReference.bucketName := "mail-archive";
            StorageReference.objectName := "emails/.eml";
            StorageReference.messageId := "";
            StorageReference.storageUrl := "gs://mail-archive/emails/.eml" |}.
Proof.
  split; [reflexivity|]. split; [reflexivity|].
  exact (proj1 (proj2 (proj2
           (save_email_in_bucket_only_brackets (Sample.haraka (Sample.hello (Some "<>")))
              Sample.storage_cfg Sample.stream (Sample.world [Sample.merchant] None)
              (Sample.hello (Some "<>")) "<>"
              eq_refl eq_refl eq_refl ltac:(discriminate) eq_refl eq_refl eq_refl)))).
Defined.

Lemma persist_email_details_accepts_iff_witness :
  carried_identifier (notes_storageReference (Sample.world [Sample.merchant] None))
    (Sample.hello (Some "<abc@x>")) = Some "abc@x" ∧
  next_calls
    (snd (FirestorePlugin.persist_email_details
            (Sample.haraka (Sample.hello (Some "<abc@x>")))
            Sample.firestore_cfg Sample.connection
            (Sample.world [Sample.merchant] None))) = [accept] ∧
  next_calls
    (snd (FirestorePlugin.persist_email_details
            (Scenario.second_call_rejected (Sample.hello (Some "<abc@x>")))
            Sample.firestore_cfg Sample.connection
            (Sample.world [Sample.merchant] None))) = [soft_reject].
Proof.
  split; [reflexivity|]. split.
  - refine (proj1 (proj1 (persist_email_details_accepts_iff
                     (Sample.haraka (Sample.hello (Some "<abc@x>")))
                     Sample.firestore_cfg Sample.tx (Sample.world [Sample.merchant] None)
                     (Sample.hello (Some "<abc@x>")) "abc@x" eq_refl eq_refl) _)).
    split; [reflexivity|]. split; [discriminate|reflexivity].
  - refine (proj1 (proj2 (persist_email_details_accepts_iff
                     (Scenario.second_call_rejected (Sample.hello (Some "<abc@x>")))
                     Sample.firestore_cfg Sample.tx (Sample.world [Sample.merchant] None)
                     (Sample.hello (Some "<abc@x>")) "abc@x" eq_refl eq_refl) _)).
    intros (_ & _ & H). discriminate H.
Defined.

Lemma persist_email_details_other_documents_witness :
  ∃ tx email id w1 ref rest,
    Sample.connection = Some {| transaction := Some tx |} ∧
    simpleParser (Sample.haraka (Sample.hello (Some "<abc@x>")))
      (parser_input tx) parser_options = inr email ∧
    resolve_messageId (Sample.haraka (Sample.hello (Some "<abc@x>")))
      (notes_storageReference (Sample.world [Sample.merchant; Scenario.second_merchant] None))
      email (Sample.world [Sample.merchant; Scenario.second_merchant] None) = (inr id, w1) ∧
    matching_recipients Sample.firestore_cfg
      (Sample.world [Sample.merchant; Scenario.second_merchant] None) (to_text email) =
      ref :: rest ∧
    ("merchants", "m1", "notifications", "abc@x") =
      document_path Sample.firestore_cfg ref id.
Proof.
  apply (persist_email_details_other_documents
           (Sample.haraka (Sample.hello (Some "<abc@x>")))
           Sample.firestore_cfg Sample.connection
           (Sample.world [Sample.merchant; Scenario.second_merchant] None)
           ("merchants", "m1", "notifications", "abc@x")).
  vm_compute. discriminate.
Defined.

Example sample_second_recipient_untouched :
  metadata_documents
    (snd (FirestorePlugin.persist_email_details
            (Sample.haraka (Sample.hello (Some "<abc@x>")))
            Sample.firestore_cfg Sample.connection
            (Sample.world [Sample.merchant; Scenario.second_merchant] None)))
    !! ("merchants", "m2", "notifications", "abc@x") = None.
Proof. vm_compute. reflexivity. Qed.

Lemma archive_then_metadata_round_trip_witness :
  matching_recipients Sample.firestore_cfg (Sample.world [Sample.merchant] None)
    (to_text (Sample.hello None)) = [Sample.merchant] ∧
  ∃ id meta details,
    next_calls
      (snd (FirestorePlugin.persist_email_details (Sample.haraka (Sample.hello None))
              Sample.firestore_cfg Scenario.stream_connection
              (snd (GcpStoragePlugin.save_email_in_bucket (Sample.haraka (Sample.hello None))
                      Sample.storage_cfg Scenario.stream_connection
                      (Sample.world [Sample.merchant] None))))) = [proceed; accept] ∧
    bucket_objects
      (snd (FirestorePlugin.persist_email_details (Sample.haraka (Sample.hello None))
              Sample.firestore_cfg Scenario.stream_connection
              (snd (GcpStoragePlugin.save_email_in_bucket (Sample.haraka (Sample.hello None))
                      Sample.storage_cfg Scenario.stream_connection
                      (Sample.world [Sample.merchant] None)))))
      !! ("mail-archive", "emails/" ++ id ++ ".eml") =
      Some {| body := [x68; x69]; attached := Some meta |} ∧
    MessageDetails.messageId details = id ∧
    MessageDetails.objectName details = Some ("emails/" ++ id ++ ".eml").
Proof.
  split; [reflexivity|].
  destruct (archive_then_metadata_round_trip (Sample.haraka (Sample.hello None))
              Sample.storage_cfg Sample.firestore_cfg Sample.stream
              (Sample.world [Sample.merchant] None)
              (Sample.hello None) (Sample.hello None) Sample.merchant []
              eq_refl eq_refl eq_refl eq_refl (λ _ _, eq_refl) eq_refl)
    as (id & meta & details & Hc & Hb & _ & _ & Hmid & _ & Hon & _).
  exists id, meta, details. repeat split; assumption.
Defined.

Lemma constructMessageDetails_dates_witness :
  monotone_clock (Sample.haraka (Sample.hello None)) ∧
  ∃ d w',
    FirestorePlugin.constructMessageDetails (Sample.haraka (Sample.hello None))
      (Sample.hello None) "abc@x" None (Sample.world [] None) = (inr d, w') ∧
    (instant (MessageDetails.date d) ≤ instant (MessageDetails.receivedDate d))%Z.
Proof.
  assert (Hmono : monotone_clock (Sample.haraka (Sample.hello None))).
  { intros i j Hij. cbn. lia. }
  split; [exact Hmono|].
  destruct (constructMessageDetails_dates (Sample.haraka (Sample.hello None))
              (Sample.hello None) "abc@x" None (Sample.world [] None) Hmono)
    as (d & w' & Hd & Hcase).
  exists d, w'. split; [exact Hd|].
  change (ParsedEmail.date (Sample.hello None)) with (@None Z) in Hcase.
  exact (proj1 (proj2 (proj2 Hcase))).
Defined.
